(** * Beartype: type-checking function factories and argumentative validators

    A shallow embedding of
    - [beartype/_check/checkmake.py]: the factories [make_func_tester],
      [make_func_raiser], the code factories [make_code_*_check], the private
      factory [_make_func_checker] and [_make_code_raiser_violation];
    - [beartype/vale/_is/_valeisargumentative.py] and
      [beartype/vale/_util/_valeutilfunc.py]: the subscription of the
      [IsArgumentative] validator factory;
    - [beartype/claw/_ast/clawastmain.py]: the node transformer
      [BeartypeNodeTransformer] of the import hooks.

    Python exceptions and warnings are explicit: a call either returns a value
    or raises, and the warnings it emits are threaded through the state. *)

From stdpp Require Import gmap strings list pretty.

Set Warnings "-register-all".

(** ** Exceptions, warnings and results *)

(** The exception classes named by the sources.  Every class modelled here
    derives from [Exception], the class the [except] clause of
    [_make_func_checker] catches. *)
Inductive ExceptionClass :=
| BeartypeConfException
| BeartypeDecorHintForwardRefException
| BeartypeDecorHintNonpepException
| BeartypeValeSubscriptionException
| _BeartypeUtilCallableException
| BeartypeCallHintViolation
| IndexError
| OtherException (name : string).

Record PyException := mkException {
  exception_cls : ExceptionClass;
  exception_message : string;
}.

Record PyWarning := mkWarning {
  warning_category : string;
  warning_message : string;
}.

Inductive Result (A : Type) :=
| Return (a : A)
| Raise (e : PyException).
Arguments Return {A} a.
Arguments Raise {A} e.

Global Instance ExceptionClass_eq_dec : EqDecision ExceptionClass.
Proof. solve_decision. Defined.
Global Instance PyException_eq_dec : EqDecision PyException.
Proof. solve_decision. Defined.
Global Instance PyWarning_eq_dec : EqDecision PyWarning.
Proof. solve_decision. Defined.

(** ** Argumentative validators ([_valeisargumentative.py]) *)

Module Vale.

(** A pure-Python function object as the validator factory inspects it: its
    identity, the names of its flexible (positional or keyword) parameters in
    declaration order, and the names of its remaining parameters (keyword-only
    and variadic), which the code object lists after the flexible ones. *)
Record PyFunction := mkFunction {
  function_id : nat;
  args_flexible : list string;
  args_rest : list string;
}.

(** The objects a caller can subscript the factory with. *)
Inductive PyObject :=
| PurePython (f : PyFunction)
| CBased (name : string)
| Uncallable (repr : string).

(** [factory[x]] passes [x] itself; [factory[x, y]] and [factory[()]] pass a
    tuple. *)
Inductive Subscription :=
| SubscriptObject (o : PyObject)
| SubscriptTuple (items : list PyObject).

Abbreviation LexicalScope := (gmap string PyObject).

(** The validator object built by the factory (the keyword arguments of the
    [BeartypeValidator(...)] call). *)
Record BeartypeValidator := mkValidator {
  is_valid : PyObject;
  is_valid_code : string;
  is_valid_code_locals : LexicalScope;
  get_repr : string;
  is_valid_target_arg_name : string;
  is_valid_remaining_arg_names : list string;
}.

Section IsArgumentative.

(** Helpers of the repository that are not part of these sources, taken as
    parameters: the name [add_func_scope_attr] gives an object in a scope,
    the representation [represent_func] renders, and the basename of the
    factory. *)
Variable func_scope_attr_name : PyObject -> string.
Variable represent_func : PyObject -> string.
Variable _basename : string.

(** Modelled from the spec: [add_func_scope_attr] is not in the sources; it
    binds the object into the scope under its uniquified name and returns that
    name. *)
Definition add_func_scope_attr (attr : PyObject) (func_scope : LexicalScope)
  : string * LexicalScope :=
  (func_scope_attr_name attr, <[func_scope_attr_name attr := attr]> func_scope).

(** Modelled from the spec: [_die_unless_getitem_args_1] of the abstract base
    class is not in the sources; it raises unless the factory was subscripted
    by exactly one argument. *)
Definition _die_unless_getitem_args_1 (args : Subscription) : Result PyObject :=
  match args with
  | SubscriptObject o => Return o
  | SubscriptTuple _ =>
      Raise (mkException BeartypeValeSubscriptionException
               (_basename +:+ "[...] not subscripted by exactly one argument."))
  end.

(** Modelled from the spec: [die_unless_func_args_len_flexible_greater_or_equal]
    is not in the sources; following the docstring of its caller it raises when
    the object is uncallable, C-based, or accepts fewer flexible parameters
    than required. *)
Definition die_unless_func_args_len_flexible_greater_or_equal
    (func : PyObject) (func_args_len_flexible : nat)
    (exception_cls : ExceptionClass) : Result PyFunction :=
  match func with
  | PurePython f =>
      if decide (func_args_len_flexible <= length (args_flexible f))
      then Return f
      else Raise (mkException exception_cls "callable accepts too few arguments.")
  | CBased name => Raise (mkException exception_cls (name +:+ " not pure-Python."))
  | Uncallable repr => Raise (mkException exception_cls (repr +:+ " uncallable."))
  end.

Definition die_unless_validator_tester (validator_tester : PyObject)
  : Result PyFunction :=
  die_unless_func_args_len_flexible_greater_or_equal
    validator_tester 1 BeartypeValeSubscriptionException.

(** Modelled from the spec: [get_func_arg_names] is not in the sources; it
    returns the names of all parameters in the order of the code object. *)
Definition get_func_arg_names (f : PyFunction) : list string :=
  args_flexible f ++ args_rest f.

(** The nested function of [__getitem__].  The inner [arg_p()] is
    [arg_names[0]]. *)
Fixpoint generate_additional_arg_string (arg_names : list string) : string :=
  match arg_names with
  | [] => ""
  | [arg_p] => ", " +:+ arg_p
  | arg_p :: (_ :: _) as rest =>
      ", " +:+ arg_p +:+ generate_additional_arg_string rest
  end.

(** [_IsArgumentativeFactory.__getitem__]. *)
Definition __getitem__ (args : Subscription) : Result BeartypeValidator :=
  match _die_unless_getitem_args_1 args with
  | Raise e => Raise e
  | Return is_valid =>
      match die_unless_validator_tester is_valid with
      | Raise e => Raise e
      | Return f =>
          let all_args := get_func_arg_names f in
          match all_args with
          | [] => Raise (mkException IndexError "list index out of range")
          | target_arg :: remaining_args =>
              let get_repr :=
                _basename +:+ "[" +:+ represent_func is_valid +:+ "]" in
              let is_valid_code_locals : LexicalScope := ∅ in
              let '(is_valid_attr_name, is_valid_code_locals) :=
                add_func_scope_attr is_valid is_valid_code_locals in
              let is_valid_code_header := is_valid_attr_name +:+ "({obj}" in
              let is_valid_code_args :=
                generate_additional_arg_string remaining_args in
              let is_valid_code_footer := ")" in
              let is_valid_code :=
                is_valid_code_header +:+ is_valid_code_args
                  +:+ is_valid_code_footer in
              Return (mkValidator is_valid is_valid_code is_valid_code_locals
                        get_repr target_arg remaining_args)
          end
      end
  end.

End IsArgumentative.

(** The concatenation of [", " + name] over the names, in order. *)
Definition comma_separated (names : list string) : string :=
  foldr (fun name acc => ", " +:+ name +:+ acc) "" names.

End Vale.

(** ** Type-checking function factories ([checkmake.py]) *)

Module Check.

(** *** Data *)

(** Piths: the runtime values handed to a type-checking function. *)
Inductive PyValue :=
| VNone
| VBool (b : bool)
| VInt (z : Z)
| VStr (s : string)
| VList (items : list PyValue)
| VInstance (cls : string) (id : nat).

(** What a type-checking function returns: a tester returns a boolean, a raiser
    that finds no violation returns [None]. *)
Inductive PyReturn :=
| RetBool (b : bool)
| RetNone.

(** The attributes of [BeartypeConf] that [checkmake.py] reads.  The class
    itself is declared outside these sources. *)
Record BeartypeConf := mkConf {
  is_debug : bool;
  _is_violation_door_warn : bool;
  _is_violation_param_warn : bool;
  _is_violation_return_warn : bool;
}.

(** The [conf] argument of a factory is an arbitrary object: either a
    configuration or something else, described by its representation. *)
Inductive ConfArgument :=
| IsConf (conf : BeartypeConf)
| NotConf (repr : string).

Global Instance BeartypeConf_eq_dec : EqDecision BeartypeConf.
Proof. solve_decision. Defined.
Global Instance ConfArgument_eq_dec : EqDecision ConfArgument.
Proof. solve_decision. Defined.

Global Instance BeartypeConf_countable : Countable BeartypeConf.
Proof.
  apply (inj_countable'
    (fun c => (is_debug c, _is_violation_door_warn c,
               _is_violation_param_warn c, _is_violation_return_warn c))
    (fun '(a, b, c, d) => mkConf a b c d)).
  by intros [].
Defined.

Global Instance ConfArgument_countable : Countable ConfArgument.
Proof.
  apply (inj_countable'
    (fun c => match c with IsConf conf => inl conf | NotConf r => inr r end)
    (fun x => match x with inl conf => IsConf conf | inr r => NotConf r end)).
  by intros [].
Defined.

(** [TypeStack]: the tuple of classes lexically containing the annotated
    attribute, by class name. *)
Abbreviation TypeStack := (list string).

(** The objects the factories bind in a lexical scope: the hint, the
    configuration, the violation getters, [warnings.warn], [getrandbits], and
    whatever the expression compiler captured. *)
Inductive ScopeObject (Hint : Type) : Type :=
| ObjHint (hint : Hint)
| ObjConf (conf : BeartypeConf)
| get_func_pith_violation
| get_hint_object_violation
| warn
| getrandbits
| ObjCaptured (repr : string).
Arguments ObjHint {Hint} hint.
Arguments ObjConf {Hint} conf.
Arguments get_func_pith_violation {Hint}.
Arguments get_hint_object_violation {Hint}.
Arguments warn {Hint}.
Arguments getrandbits {Hint}.
Arguments ObjCaptured {Hint} repr.

(** [LexicalScope]: a dictionary from attribute names to objects. *)
Abbreviation LexicalScope Hint := (gmap string (ScopeObject Hint)).

(** [CodeGenerated]: the code snippet, its lexical scope, and the basenames of
    the relative forward references the hint contains. *)
Abbreviation CodeGenerated Hint :=
  (string * LexicalScope Hint * list string)%type.

(** A function object made from generated code. *)
Record PyFunction (Hint : Type) := mkPyFunction {
  func_name : string;
  func_code : string;
  func_locals : LexicalScope Hint;
}.
Arguments mkPyFunction {Hint} _ _ _.
Arguments func_name {Hint} _.
Arguments func_code {Hint} _.
Arguments func_locals {Hint} _.

(** What a factory returns: the singleton [_func_checker_ignorable] or a
    function generated for the hint.  Two results are the same object exactly
    when they are equal here. *)
Inductive Callable (Hint : Type) : Type :=
| Ignorable
| Generated (func : PyFunction Hint).
Arguments Ignorable {Hint}.
Arguments Generated {Hint} func.

(** A callee's behaviour as its caller sees it: the warnings it emits, in
    order, and then the value it returns or the exception it raises.  A
    dictionary returned by a callee is a value: the sharing of one dictionary
    object between the memo of a callee and the factory that updates it is not
    represented, and no property below depends on it. *)
Definition Outcome (A : Type) : Type := (list PyWarning * Result A)%type.

Definition oret {A} (a : A) : Outcome A := ([], Return a).

Definition obind {A B} (m : Outcome A) (k : A -> Outcome B) : Outcome B :=
  match m with
  | (ws, Raise e) => (ws, Raise e)
  | (ws, Return a) => let '(ws', r) := k a in (ws ++ ws', r)
  end.

(** *** Constants and collaborators declared outside these sources *)

(** The string constants imported from [checkmagic], [_checksnip],
    [dataerrmagic] and [datafuncarg].  The two format templates are functions
    of the fields they interpolate. *)
Class Magic := {
  ARG_NAME_CONF : string;
  ARG_NAME_GETRANDBITS : string;
  ARG_NAME_GET_VIOLATION : string;
  ARG_NAME_HINT : string;
  ARG_NAME_WARN : string;
  CODE_PITH_ROOT_NAME_PLACEHOLDER : string;
  FUNC_CHECKER_NAME_PREFIX : string;
  CODE_CHECKER_SIGNATURE : string;
  CODE_RAISER_FUNC_PITH_CHECK_PREFIX : string;
  CODE_RAISER_HINT_OBJECT_CHECK_PREFIX : string;
  CODE_TESTER_CHECK_PREFIX : string;
  (* .format(arg_cls_stack=..., arg_random_int=..., pith_name=...) *)
  CODE_GET_FUNC_PITH_VIOLATION_format : string -> string -> string -> string;
  (* .format(arg_random_int=...) *)
  CODE_GET_HINT_OBJECT_VIOLATION_format : string -> string;
  CODE_GET_VIOLATION_CLS_STACK : string;
  CODE_GET_VIOLATION_RANDOM_INT : string;
  CODE_RAISE_VIOLATION : string;
  CODE_WARN_VIOLATION : string;
  EXCEPTION_PLACEHOLDER : string;
  ARG_NAME_RETURN_REPR : string;
}.

(** The callables imported from the rest of the package, each a function of
    its arguments to the warnings it emits and its result; [exec_func] is the
    interpreter running a generated function on a pith and the random integer
    drawn for that call.  A generated function is thereby taken to depend on
    its code, its scope, the pith and that integer only: a validator bound in
    the scope that keeps a state of its own is outside this model. *)
Class Collaborators (Hint : Type) := {
  repr : Hint -> string;
  sanify_hint_root_statement : Hint -> BeartypeConf -> string -> Outcome Hint;
  is_hint_ignorable : Hint -> bool;
  make_check_expr :
    Hint -> BeartypeConf -> option TypeStack -> Outcome (CodeGenerated Hint);
  make_func_signature :
    string -> LexicalScope Hint -> string -> BeartypeConf -> Outcome string;
  make_func :
    string -> string -> LexicalScope Hint -> string -> bool ->
    Outcome (PyFunction Hint);
  exec_func : PyFunction Hint -> PyValue -> Z -> Outcome PyReturn;
}.

(** *** Process state *)

(** Ghost events recording what a request did: the code factory was invoked, a
    function was made, a warning was captured by [catch_warnings], a warning
    reached the caller. *)
Inductive Event (Hint : Type) : Type :=
| EvCodeCheck (hint : Hint) (conf : BeartypeConf)
| EvMade (name : string)
| EvCaptured (w : PyWarning)
| EvIssued (w : PyWarning).
Arguments EvCodeCheck {Hint} hint conf.
Arguments EvMade {Hint} name.
Arguments EvCaptured {Hint} w.
Arguments EvIssued {Hint} w.

(** The module-level state: the name counter [count(start=0, step=1)], the
    memo of each [@callable_cached] factory, the active [catch_warnings] log,
    the ghost trace, and the process random generator as the stream of its
    future draws. *)
Record State (Hint : Type) `{Countable Hint} := mkState {
  _func_checker_name_counter : nat;
  make_func_tester_cache : gmap (Hint * ConfArgument) (Callable Hint);
  make_func_raiser_cache : gmap (Hint * ConfArgument) (Callable Hint);
  make_code_tester_check_cache : gmap (Hint * BeartypeConf) (CodeGenerated Hint);
  make_code_raiser_hint_object_check_cache :
    gmap (Hint * BeartypeConf) (CodeGenerated Hint);
  warnings_recorded : option (list PyWarning);
  trace : list (Event Hint);
  random_source : nat -> Z;
  random_drawn : nat;
}.
Arguments mkState {Hint _ _} _ _ _ _ _ _ _ _ _.
Arguments _func_checker_name_counter {Hint _ _} _.
Arguments make_func_tester_cache {Hint _ _} _.
Arguments make_func_raiser_cache {Hint _ _} _.
Arguments make_code_tester_check_cache {Hint _ _} _.
Arguments make_code_raiser_hint_object_check_cache {Hint _ _} _.
Arguments warnings_recorded {Hint _ _} _.
Arguments trace {Hint _ _} _.
Arguments random_source {Hint _ _} _.
Arguments random_drawn {Hint _ _} _.

Section Factories.

Context {Hint : Type} `{Countable Hint} `{!Magic} `{!Collaborators Hint}.

Implicit Types (s : State Hint) (w : PyWarning) (e : PyException).

(** Field updates. *)
Definition set_counter (n : nat) s : State Hint :=
  mkState n (make_func_tester_cache s) (make_func_raiser_cache s)
    (make_code_tester_check_cache s)
    (make_code_raiser_hint_object_check_cache s)
    (warnings_recorded s) (trace s) (random_source s) (random_drawn s).

Definition set_make_func_tester_cache m s : State Hint :=
  mkState (_func_checker_name_counter s) m (make_func_raiser_cache s)
    (make_code_tester_check_cache s)
    (make_code_raiser_hint_object_check_cache s)
    (warnings_recorded s) (trace s) (random_source s) (random_drawn s).

Definition set_make_func_raiser_cache m s : State Hint :=
  mkState (_func_checker_name_counter s) (make_func_tester_cache s) m
    (make_code_tester_check_cache s)
    (make_code_raiser_hint_object_check_cache s)
    (warnings_recorded s) (trace s) (random_source s) (random_drawn s).

Definition set_make_code_tester_check_cache m s : State Hint :=
  mkState (_func_checker_name_counter s) (make_func_tester_cache s)
    (make_func_raiser_cache s) m
    (make_code_raiser_hint_object_check_cache s)
    (warnings_recorded s) (trace s) (random_source s) (random_drawn s).

Definition set_make_code_raiser_hint_object_check_cache m s : State Hint :=
  mkState (_func_checker_name_counter s) (make_func_tester_cache s)
    (make_func_raiser_cache s) (make_code_tester_check_cache s) m
    (warnings_recorded s) (trace s) (random_source s) (random_drawn s).

Definition set_warnings_recorded (log : option (list PyWarning)) s : State Hint :=
  mkState (_func_checker_name_counter s) (make_func_tester_cache s)
    (make_func_raiser_cache s) (make_code_tester_check_cache s)
    (make_code_raiser_hint_object_check_cache s)
    log (trace s) (random_source s) (random_drawn s).

Definition set_trace (t : list (Event Hint)) s : State Hint :=
  mkState (_func_checker_name_counter s) (make_func_tester_cache s)
    (make_func_raiser_cache s) (make_code_tester_check_cache s)
    (make_code_raiser_hint_object_check_cache s)
    (warnings_recorded s) t (random_source s) (random_drawn s).

Definition set_random_drawn (n : nat) s : State Hint :=
  mkState (_func_checker_name_counter s) (make_func_tester_cache s)
    (make_func_raiser_cache s) (make_code_tester_check_cache s)
    (make_code_raiser_hint_object_check_cache s)
    (warnings_recorded s) (trace s) (random_source s) n.

(** The state of a fresh process. *)
Definition initial_state (source : nat -> Z) : State Hint :=
  mkState 0 ∅ ∅ ∅ ∅ None [] source 0.

(** *** Computations: state, exceptions, warnings *)

Definition M (A : Type) : Type := State Hint -> State Hint * Result A.

Definition ret {A} (a : A) : M A := fun s => (s, Return a).

Definition bind {A B} (m : M A) (k : A -> M B) : M B := fun s =>
  match m s with
  | (s', Return a) => k a s'
  | (s', Raise e) => (s', Raise e)
  end.

Definition raise {A} e : M A := fun s => (s, Raise e).

(** [try: m  except Exception as e: handler(e)]. *)
Definition try_except {A} (m : M A) (handler : PyException -> M A) : M A :=
  fun s =>
    match m s with
    | (s', Return a) => (s', Return a)
    | (s', Raise e) => handler e s'
    end.

Notation "'let*' x ':=' m 'in' k" := (bind m (fun x => k))
  (at level 10, x pattern, m at level 100, k at level 200).

Definition log_event (ev : Event Hint) : M unit := fun s =>
  (set_trace (trace s ++ [ev]) s, Return tt).

(** A warning is appended to the log of the active [catch_warnings(record=True)]
    block, or else reaches the caller.  The warnings filter lets every warning
    through. *)
Definition issue_warning w : M unit := fun s =>
  match warnings_recorded s with
  | Some log =>
      (set_trace (trace s ++ [EvCaptured w])
         (set_warnings_recorded (Some (log ++ [w])) s), Return tt)
  | None => (set_trace (trace s ++ [EvIssued w]) s, Return tt)
  end.

Fixpoint issue_warnings (ws : list PyWarning) : M unit :=
  match ws with
  | [] => ret tt
  | w :: ws => let* _ := issue_warning w in issue_warnings ws
  end.

(** Calling a collaborator: its warnings are emitted, then it returns or
    raises. *)
Definition call {A} (o : Outcome A) : M A := fun s =>
  match issue_warnings (fst o) s with
  | (s', _) => (s', snd o)
  end.

(** [with catch_warnings(record=True) as warnings_issued: body].  The previous
    log is restored when the block is left, normally or by an exception; the
    recorded warnings are available only after a normal exit. *)
Definition catch_warnings {A} (body : M A) : M (A * list PyWarning) := fun s =>
  let saved := warnings_recorded s in
  match body (set_warnings_recorded (Some []) s) with
  | (s', r) =>
      let warnings_issued := default [] (warnings_recorded s') in
      (set_warnings_recorded saved s',
       match r with
       | Return a => Return (a, warnings_issued)
       | Raise e => Raise e
       end)
  end.

(** [next(_func_checker_name_counter)]. *)
Definition next_func_checker_name_counter : M nat := fun s =>
  (set_counter (S (_func_checker_name_counter s)) s,
   Return (_func_checker_name_counter s)).

(** [getrandbits(k)]: the next draw of the process generator, on [k] bits. *)
Definition call_getrandbits (k : N) : M Z := fun s =>
  (set_random_drawn (S (random_drawn s)) s,
   Return (Z.land (random_source s (random_drawn s)) (Z.ones (Z.of_N k)))).

(** *** Helpers of the package that are not part of these sources *)

(** Python [str.replace(old, new)] for a non-empty [old]: occurrences are
    replaced left to right without overlap.  [skip] counts the characters of a
    replaced occurrence still to be dropped. *)
Fixpoint str_replace_from (old new : string) (skip : nat) (text : string)
  : string :=
  match text with
  | EmptyString => EmptyString
  | String c rest =>
      match skip with
      | S skip' => str_replace_from old new skip' rest
      | O =>
          if String.prefix old text
          then new +:+ str_replace_from old new (String.length old - 1) rest
          else String c (str_replace_from old new 0 rest)
      end
  end.

Definition str_replace (old new text : string) : string :=
  match old with
  | EmptyString => text
  | _ => str_replace_from old new 0 text
  end.

(** Modelled from the spec: [die_unless_conf] is not in the sources; it raises
    unless the object is a configuration. *)
Definition die_unless_conf (conf : ConfArgument) : Result BeartypeConf :=
  match conf with
  | IsConf conf => Return conf
  | NotConf repr =>
      Raise (mkException BeartypeConfException
               (repr +:+ " not beartype configuration."))
  end.

(** Modelled from the spec: [get_hint_pep484585_ref_names_relative_to] is not
    in the sources; called as [_make_func_checker] calls it, with a relative
    forward reference and neither a type stack nor a callable to resolve it
    against, it raises the forward reference exception (the spec's
    [PortabilityError]). *)
Definition get_hint_pep484585_ref_names_relative_to
    (hint : string) (exception_prefix : string) : Result (string * string) :=
  Raise (mkException BeartypeDecorHintForwardRefException
           (exception_prefix +:+ "contains relative forward reference '"
              +:+ hint +:+ "', which must be absolute.")).

(** Modelled from the spec: [reraise_exception_placeholder] is not in the
    sources; it raises the exception it is given, of the same class, with
    the placeholder in its message replaced by the target string. *)
Definition reraise_exception_placeholder {A}
    (exception : PyException) (target_str : string) : M A :=
  raise (mkException (exception_cls exception)
           (str_replace EXCEPTION_PLACEHOLDER target_str
              (exception_message exception))).

(** A warning with the placeholder in its message replaced. *)
Definition replace_warning_placeholder (target_str : string) w : PyWarning :=
  mkWarning (warning_category w)
    (str_replace EXCEPTION_PLACEHOLDER target_str (warning_message w)).

(** Modelled from the spec: [reissue_warnings_placeholder] is not in the
    sources; it issues each recorded warning again, in order, with the
    placeholder in its message replaced by the target string. *)
Definition reissue_warnings_placeholder
    (warnings : list PyWarning) (target_str : string) : M unit :=
  issue_warnings (map (replace_warning_placeholder target_str) warnings).

(** Modelled from the spec: the decorator [callable_cached] is not in the
    sources.  It looks the arguments up in the memo of the decorated callable
    and otherwise calls it and stores what it returns. *)
Definition callable_cached {K V : Type} `{Countable K}
    (cache : State Hint -> gmap K V)
    (set_cache : gmap K V -> State Hint -> State Hint)
    (func : K -> M V) (args : K) : M V := fun s =>
  match cache s !! args with
  | Some value => (s, Return value)
  | None =>
      match func args s with
      | (s', Return value) =>
          (set_cache (<[args := value]> (cache s')) s', Return value)
      | (s', Raise e) => (s', Raise e)
      end
  end.

(** *** The private code factory [_make_code_raiser_violation] *)

(** [key in func_scope]. *)
Definition scope_has (key : string) (func_scope : LexicalScope Hint) : bool :=
  match func_scope !! key with
  | Some _ => true
  | None => false
  end.

(** The tri-state [is_param] is [Some true] for a parameter, [Some false] for a
    return, and [None] for an object passed to the DOOR type-checkers.  The
    factory mutates the scope it is passed, so the updated scope is returned
    along with the snippet. *)
Definition _make_code_raiser_violation
    (conf : BeartypeConf) (func_scope : LexicalScope Hint)
    (is_param : option bool) : string * LexicalScope Hint :=
  let func_scope := <[ARG_NAME_CONF := ObjConf conf]> func_scope in
  if match is_param with
     | None => _is_violation_door_warn conf
     | Some true => _is_violation_param_warn conf
     | Some false => _is_violation_return_warn conf
     end
  then
    let code_violation := CODE_WARN_VIOLATION in
    let func_scope := <[ARG_NAME_WARN := warn]> func_scope in
    (code_violation, func_scope)
  else
    let code_violation := CODE_RAISE_VIOLATION in
    (code_violation, func_scope).

(** *** The code factories *)

(** The body of each [@callable_cached] code factory, as a function of its
    arguments to the warnings and result of the call. *)
Definition make_code_tester_check_body
    (hint : Hint) (conf : BeartypeConf) : Outcome (CodeGenerated Hint) :=
  obind (make_check_expr hint conf None)
    (fun '(code_expr, func_scope, hint_refs_type_basename) =>
       let func_code := CODE_TESTER_CHECK_PREFIX +:+ code_expr in
       oret (func_code, func_scope, hint_refs_type_basename)).

Definition make_code_raiser_func_pith_check_body
    (hint : Hint) (conf : BeartypeConf) (cls_stack : option TypeStack)
    (is_param : option bool) : Outcome (CodeGenerated Hint) :=
  obind (make_check_expr hint conf cls_stack)
    (fun '(code_expr, func_scope, hint_refs_type_basename) =>
       let arg_random_int :=
         if scope_has ARG_NAME_GETRANDBITS func_scope
         then CODE_GET_VIOLATION_RANDOM_INT else "" in
       let arg_cls_stack :=
         match cls_stack with
         | Some (_ :: _) => CODE_GET_VIOLATION_CLS_STACK
         | _ => ""
         end in
       let func_scope :=
         <[ARG_NAME_GET_VIOLATION := get_func_pith_violation]> func_scope in
       let code_get_violation :=
         CODE_GET_FUNC_PITH_VIOLATION_format
           arg_cls_stack arg_random_int CODE_PITH_ROOT_NAME_PLACEHOLDER in
       let '(code_handle_violation, func_scope) :=
         _make_code_raiser_violation conf func_scope is_param in
       let func_code :=
         CODE_RAISER_FUNC_PITH_CHECK_PREFIX +:+ code_expr
           +:+ code_get_violation +:+ code_handle_violation in
       oret (func_code, func_scope, hint_refs_type_basename)).

Definition make_code_raiser_func_pep484_noreturn_check_body
    (conf : BeartypeConf) : Outcome (CodeGenerated Hint) :=
  let func_scope : LexicalScope Hint := ∅ in
  let func_scope :=
    <[ARG_NAME_GET_VIOLATION := get_func_pith_violation]> func_scope in
  let code_get_violation :=
    CODE_GET_FUNC_PITH_VIOLATION_format "" "" ARG_NAME_RETURN_REPR in
  let '(code_handle_violation, func_scope) :=
    _make_code_raiser_violation conf func_scope (Some false) in
  let func_code := code_get_violation +:+ code_handle_violation in
  oret (func_code, func_scope, []).

Definition make_code_raiser_hint_object_check_body
    (hint : Hint) (conf : BeartypeConf) : Outcome (CodeGenerated Hint) :=
  obind (make_check_expr hint conf None)
    (fun '(code_expr, func_scope, hint_refs_type_basename) =>
       let arg_random_int :=
         if scope_has ARG_NAME_GETRANDBITS func_scope
         then CODE_GET_VIOLATION_RANDOM_INT else "" in
       let func_scope :=
         <[ARG_NAME_GET_VIOLATION := get_hint_object_violation]> func_scope in
       let func_scope := <[ARG_NAME_HINT := ObjHint hint]> func_scope in
       let code_get_violation :=
         CODE_GET_HINT_OBJECT_VIOLATION_format arg_random_int in
       let '(code_handle_violation, func_scope) :=
         _make_code_raiser_violation conf func_scope None in
       let func_code :=
         CODE_RAISER_HINT_OBJECT_CHECK_PREFIX +:+ code_expr
           +:+ code_get_violation +:+ code_handle_violation in
       oret (func_code, func_scope, hint_refs_type_basename)).

(** The two memoized code factories the function factories call.  (The memos
    of [make_code_raiser_func_pith_check] and of the [NoReturn] factory belong
    to the decorator, which is outside this module's callers.) *)
Definition make_code_tester_check (hint : Hint) (conf : BeartypeConf)
  : M (CodeGenerated Hint) :=
  callable_cached make_code_tester_check_cache set_make_code_tester_check_cache
    (fun '(hint, conf) => call (make_code_tester_check_body hint conf))
    (hint, conf).

Definition make_code_raiser_hint_object_check (hint : Hint) (conf : BeartypeConf)
  : M (CodeGenerated Hint) :=
  callable_cached make_code_raiser_hint_object_check_cache
    set_make_code_raiser_hint_object_check_cache
    (fun '(hint, conf) =>
       call (make_code_raiser_hint_object_check_body hint conf))
    (hint, conf).

(** *** The function factories *)

(** [_func_checker_ignorable(obj)]. *)
Definition _func_checker_ignorable (obj : PyValue) : bool := true.

(** How the [with] block of [_make_func_checker] is left without an exception:
    by its [return] statement, or by reaching its end. *)
Inductive BlockExit (A : Type) :=
| ReturnStatement (value : Callable Hint)
| EndOfBlock (a : A).
Arguments ReturnStatement {A} value.
Arguments EndOfBlock {A} a.

Definition _make_func_checker
    (hint : Hint) (conf : ConfArgument)
    (make_code_check : Hint -> BeartypeConf -> M (CodeGenerated Hint))
    (exception_prefix : string) : M (Callable Hint) :=
  try_except
    (let* (block, warnings_issued) :=
       catch_warnings
         (let* conf := call ([], die_unless_conf conf) in
          let* hint :=
            call (sanify_hint_root_statement hint conf EXCEPTION_PLACEHOLDER) in
          if is_hint_ignorable hint then
            ret (ReturnStatement Ignorable)
          else
            let* _ := log_event (EvCodeCheck hint conf) in
            let* (code_check, func_scope, hint_refs_type_basename) :=
              make_code_check hint conf in
            let* _ :=
              match hint_refs_type_basename with
              | ref :: _ =>
                  let* _ :=
                    call ([], get_hint_pep484585_ref_names_relative_to ref
                                (EXCEPTION_PLACEHOLDER +:+ "type hint "
                                   +:+ repr hint +:+ " ")) in
                  ret tt
              | [] => ret tt
              end in
            let* n := next_func_checker_name_counter in
            let func_checker_name := FUNC_CHECKER_NAME_PREFIX +:+ pretty n in
            let* code_signature :=
              call (make_func_signature func_checker_name func_scope
                      CODE_CHECKER_SIGNATURE conf) in
            let func_checker_code := code_signature +:+ code_check in
            let* func_tester :=
              call (make_func func_checker_name func_checker_code func_scope
                      "die_if_unbearable() or is_bearable() type-checker"
                      (is_debug conf)) in
            let* _ := log_event (EvMade func_checker_name) in
            ret (EndOfBlock func_tester)) in
     match block with
     | ReturnStatement value => ret value
     | EndOfBlock func_tester =>
         let* _ :=
           match warnings_issued with
           | [] => ret tt
           | _ :: _ =>
               reissue_warnings_placeholder warnings_issued exception_prefix
           end in
         ret (Generated func_tester)
     end)
    (fun exception => reraise_exception_placeholder exception exception_prefix).

(** The default [exception_prefix] of [_make_func_checker]. *)
Definition exception_prefix_default : string :=
  "die_if_unbearable() or is_bearable() ".

Definition make_func_raiser (hint : Hint) (conf : ConfArgument)
  : M (Callable Hint) :=
  callable_cached make_func_raiser_cache set_make_func_raiser_cache
    (fun '(hint, conf) =>
       _make_func_checker hint conf make_code_raiser_hint_object_check
         exception_prefix_default)
    (hint, conf).

Definition make_func_tester (hint : Hint) (conf : ConfArgument)
  : M (Callable Hint) :=
  callable_cached make_func_tester_cache set_make_func_tester_cache
    (fun '(hint, conf) =>
       _make_func_checker hint conf make_code_tester_check
         exception_prefix_default)
    (hint, conf).

(** *** Calling a type-checking function *)

(** A generated function whose scope binds [getrandbits] draws one random
    integer per call before its body runs; the singleton returns [True]. *)
Definition call_checker (func : Callable Hint) (obj : PyValue) : M PyReturn :=
  match func with
  | Ignorable => ret (RetBool (_func_checker_ignorable obj))
  | Generated f =>
      let* random_int :=
        if scope_has ARG_NAME_GETRANDBITS (func_locals f)
        then call_getrandbits 32
        else ret 0%Z in
      call (exec_func f obj random_int)
  end.

(** *** Requests and reachable states *)

Inductive Request :=
| MakeFuncTester (hint : Hint) (conf : ConfArgument)
| MakeFuncRaiser (hint : Hint) (conf : ConfArgument)
| CallChecker (func : Callable Hint) (obj : PyValue).

Definition run_request (r : Request) s : State Hint :=
  match r with
  | MakeFuncTester hint conf => fst (make_func_tester hint conf s)
  | MakeFuncRaiser hint conf => fst (make_func_raiser hint conf s)
  | CallChecker func obj => fst (call_checker func obj s)
  end.

Definition run_requests (rs : list Request) s : State Hint :=
  foldl (fun s r => run_request r s) s rs.

(** The names of the functions made so far, oldest first. *)
Definition made_names (t : list (Event Hint)) : list string :=
  omap (fun ev => match ev with EvMade name => Some name | _ => None end) t.

(** The code-factory invocations so far. *)
Definition code_check_calls (t : list (Event Hint)) : list (Hint * BeartypeConf) :=
  omap (fun ev =>
          match ev with EvCodeCheck h c => Some (h, c) | _ => None end) t.

Definition captured_warnings (t : list (Event Hint)) : list PyWarning :=
  omap (fun ev => match ev with EvCaptured w => Some w | _ => None end) t.

Definition issued_warnings (t : list (Event Hint)) : list PyWarning :=
  omap (fun ev => match ev with EvIssued w => Some w | _ => None end) t.

(** *** Specification vocabulary *)

(** The configuration switch that governs a call site: the DOOR switch for a
    free-standing object, the parameter switch for a parameter, the return
    switch for a return. *)
Definition is_violation_warn (conf : BeartypeConf) (is_param : option bool)
  : bool :=
  match is_param with
  | None => _is_violation_door_warn conf
  | Some true => _is_violation_param_warn conf
  | Some false => _is_violation_return_warn conf
  end.

Definition func_checker_name (n : nat) : string :=
  FUNC_CHECKER_NAME_PREFIX +:+ pretty n.

(** What [reraise_exception_placeholder] raises for an exception. *)
Definition reraised (target_str : string) e : PyException :=
  mkException (exception_cls e)
    (str_replace EXCEPTION_PLACEHOLDER target_str (exception_message e)).

(** The exception of the forward reference check of [_make_func_checker]. *)
Definition forward_ref_exception (hint : Hint) (ref : string) : PyException :=
  mkException BeartypeDecorHintForwardRefException
    ((EXCEPTION_PLACEHOLDER +:+ "type hint " +:+ repr hint +:+ " ")
       +:+ "contains relative forward reference '"
       +:+ ref +:+ "', which must be absolute.").

(** The events a request appended to the trace. *)
Definition events_since s s' : list (Event Hint) :=
  drop (length (trace s)) (trace s').

(** Every entry of the memo of a code factory is what its body returns. *)
Definition code_cache_sound
    (cache : gmap (Hint * BeartypeConf) (CodeGenerated Hint))
    (body : Hint -> BeartypeConf -> Outcome (CodeGenerated Hint)) : Prop :=
  forall hint conf generated,
    cache !! (hint, conf) = Some generated ->
    snd (body hint conf) = Return generated.

(** A function is what a request for the hint and configuration can have
    returned: the configuration is valid, the hint sanifies, and either it is
    ignorable and the function is the singleton, or its code was generated
    without forward references. *)
Definition checker_sound
    (body : Hint -> BeartypeConf -> Outcome (CodeGenerated Hint))
    (hint : Hint) (conf : ConfArgument) (func : Callable Hint) : Prop :=
  exists conf' hint',
    die_unless_conf conf = Return conf' /\
    snd (sanify_hint_root_statement hint conf' EXCEPTION_PLACEHOLDER)
      = Return hint' /\
    if is_hint_ignorable hint' then func = Ignorable
    else exists code scope, snd (body hint' conf') = Return (code, scope, []).

Definition func_cache_sound
    (cache : gmap (Hint * ConfArgument) (Callable Hint))
    (body : Hint -> BeartypeConf -> Outcome (CodeGenerated Hint)) : Prop :=
  forall hint conf func,
    cache !! (hint, conf) = Some func -> checker_sound body hint conf func.

(** The names made so far were all drawn from the counter, each once. *)
Definition names_fresh (n : nat) (names : list string) : Prop :=
  NoDup names /\
  Forall (fun name => exists k, k < n /\ name = func_checker_name k) names.

(** The invariant of the states between requests. *)
Record wf_state s : Prop := mk_wf_state {
  wf_not_recording : warnings_recorded s = None;
  wf_tester_cache :
    func_cache_sound (make_func_tester_cache s) make_code_tester_check_body;
  wf_raiser_cache :
    func_cache_sound (make_func_raiser_cache s)
      make_code_raiser_hint_object_check_body;
  wf_code_tester_cache :
    code_cache_sound (make_code_tester_check_cache s)
      make_code_tester_check_body;
  wf_code_raiser_cache :
    code_cache_sound (make_code_raiser_hint_object_check_cache s)
      make_code_raiser_hint_object_check_body;
  wf_names :
    names_fresh (_func_checker_name_counter s) (made_names (trace s));
}.

(** The states a process can be in: any sequence of requests from a fresh
    process. *)
Inductive reachable : State Hint -> Prop :=
| reachable_initial source : reachable (initial_state source)
| reachable_request r s : reachable s -> reachable (run_request r s).

(** A synthesis: a request that the memo of its factory does not answer and
    that returns a newly made function. *)
Definition synthesizes (req : Request) s (func : PyFunction Hint) : Prop :=
  match req with
  | MakeFuncTester hint conf =>
      make_func_tester_cache s !! (hint, conf) = None /\
      snd (make_func_tester hint conf s) = Return (Generated func)
  | MakeFuncRaiser hint conf =>
      make_func_raiser_cache s !! (hint, conf) = None /\
      snd (make_func_raiser hint conf s) = Return (Generated func)
  | CallChecker _ _ => False
  end.

(** The function is the one [make_func] returned when [_make_func_checker]
    called it with the name, on the signature [make_func_signature] rendered
    for the same name. *)
Definition made_under (name : string) (func : PyFunction Hint) : Prop :=
  exists conf scope code sig,
    snd (make_func_signature name scope CODE_CHECKER_SIGNATURE conf)
      = Return sig /\
    snd (make_func name (sig +:+ code) scope
           "die_if_unbearable() or is_bearable() type-checker"
           (is_debug conf)) = Return func.

(** The state after a request that started in [s]: the counter, the memos of
    the code factories, and the events appended to the trace. *)
Definition request_state s (n : nat)
    (ct cr : gmap (Hint * BeartypeConf) (CodeGenerated Hint))
    (events : list (Event Hint)) : State Hint :=
  mkState n (make_func_tester_cache s) (make_func_raiser_cache s) ct cr
    None (trace s ++ events) (random_source s) (random_drawn s).

(** What a memoized code factory does inside the [catch_warnings] block: it
    returns what its body returns, emitting the warnings of the body when the
    body runs and none when the memo answers, and keeps the memos sound. *)
Definition code_factory_spec
    (make_code_check : Hint -> BeartypeConf -> M (CodeGenerated Hint))
    (body : Hint -> BeartypeConf -> Outcome (CodeGenerated Hint)) : Prop :=
  forall hint conf n t r ct cr log tr src d,
    code_cache_sound ct make_code_tester_check_body ->
    code_cache_sound cr make_code_raiser_hint_object_check_body ->
    exists ct' cr' ws,
      make_code_check hint conf (mkState n t r ct cr (Some log) tr src d)
      = (mkState n t r ct' cr' (Some (log ++ ws))
           (tr ++ map EvCaptured ws) src d,
         snd (body hint conf)) /\
      code_cache_sound ct' make_code_tester_check_body /\
      code_cache_sound cr' make_code_raiser_hint_object_check_body /\
      (ws = [] \/ ws = fst (body hint conf)).




(** The runs of [_make_func_checker] from a state between requests, one
    constructor per way of leaving the function. *)
Section Runs.

Variable body : Hint -> BeartypeConf -> Outcome (CodeGenerated Hint).
Variable hint : Hint.
Variable conf : ConfArgument.
Variable exception_prefix : string.
Variable s : State Hint.

Let n0 := _func_checker_name_counter s.
Let ct0 := make_code_tester_check_cache s.
Let cr0 := make_code_raiser_hint_object_check_cache s.

Definition code_caches_after
    (hint' : Hint) (conf' : BeartypeConf)
    (ct cr : gmap (Hint * BeartypeConf) (CodeGenerated Hint))
    (ws : list PyWarning) : Prop :=
  code_cache_sound ct make_code_tester_check_body /\
  code_cache_sound cr make_code_raiser_hint_object_check_body /\
  (ws = [] \/ ws = fst (body hint' conf')).

Inductive checker_run : State Hint -> Result (Callable Hint) -> Prop :=
| run_conf_raises e :
    die_unless_conf conf = Raise e ->
    checker_run (request_state s n0 ct0 cr0 [])
      (Raise (reraised exception_prefix e))
| run_sanify_raises conf' ws e :
    die_unless_conf conf = Return conf' ->
    sanify_hint_root_statement hint conf' EXCEPTION_PLACEHOLDER
      = (ws, Raise e) ->
    checker_run (request_state s n0 ct0 cr0 (map EvCaptured ws))
      (Raise (reraised exception_prefix e))
| run_ignorable conf' ws hint' :
    die_unless_conf conf = Return conf' ->
    sanify_hint_root_statement hint conf' EXCEPTION_PLACEHOLDER
      = (ws, Return hint') ->
    is_hint_ignorable hint' = true ->
    checker_run (request_state s n0 ct0 cr0 (map EvCaptured ws))
      (Return Ignorable)
| run_code_raises conf' ws hint' ct cr ws2 e :
    die_unless_conf conf = Return conf' ->
    sanify_hint_root_statement hint conf' EXCEPTION_PLACEHOLDER
      = (ws, Return hint') ->
    is_hint_ignorable hint' = false ->
    code_caches_after hint' conf' ct cr ws2 ->
    snd (body hint' conf') = Raise e ->
    checker_run
      (request_state s n0 ct cr
         (map EvCaptured ws ++ [EvCodeCheck hint' conf']
            ++ map EvCaptured ws2))
      (Raise (reraised exception_prefix e))
| run_forward_ref conf' ws hint' ct cr ws2 code scope ref refs :
    die_unless_conf conf = Return conf' ->
    sanify_hint_root_statement hint conf' EXCEPTION_PLACEHOLDER
      = (ws, Return hint') ->
    is_hint_ignorable hint' = false ->
    code_caches_after hint' conf' ct cr ws2 ->
    snd (body hint' conf') = Return (code, scope, ref :: refs) ->
    checker_run
      (request_state s n0 ct cr
         (map EvCaptured ws ++ [EvCodeCheck hint' conf']
            ++ map EvCaptured ws2))
      (Raise (reraised exception_prefix (forward_ref_exception hint' ref)))
| run_signature_raises conf' ws hint' ct cr ws2 code scope ws3 e :
    die_unless_conf conf = Return conf' ->
    sanify_hint_root_statement hint conf' EXCEPTION_PLACEHOLDER
      = (ws, Return hint') ->
    is_hint_ignorable hint' = false ->
    code_caches_after hint' conf' ct cr ws2 ->
    snd (body hint' conf') = Return (code, scope, []) ->
    make_func_signature (func_checker_name n0) scope CODE_CHECKER_SIGNATURE
      conf' = (ws3, Raise e) ->
    checker_run
      (request_state s (S n0) ct cr
         (map EvCaptured ws ++ [EvCodeCheck hint' conf']
            ++ map EvCaptured ws2 ++ map EvCaptured ws3))
      (Raise (reraised exception_prefix e))
| run_make_func_raises conf' ws hint' ct cr ws2 code scope ws3 sig ws4 e :
    die_unless_conf conf = Return conf' ->
    sanify_hint_root_statement hint conf' EXCEPTION_PLACEHOLDER
      = (ws, Return hint') ->
    is_hint_ignorable hint' = false ->
    code_caches_after hint' conf' ct cr ws2 ->
    snd (body hint' conf') = Return (code, scope, []) ->
    make_func_signature (func_checker_name n0) scope CODE_CHECKER_SIGNATURE
      conf' = (ws3, Return sig) ->
    make_func (func_checker_name n0) (sig +:+ code) scope
      "die_if_unbearable() or is_bearable() type-checker" (is_debug conf')
      = (ws4, Raise e) ->
    checker_run
      (request_state s (S n0) ct cr
         (map EvCaptured ws ++ [EvCodeCheck hint' conf']
            ++ map EvCaptured ws2 ++ map EvCaptured ws3
            ++ map EvCaptured ws4))
      (Raise (reraised exception_prefix e))
| run_made conf' ws hint' ct cr ws2 code scope ws3 sig ws4 func :
    die_unless_conf conf = Return conf' ->
    sanify_hint_root_statement hint conf' EXCEPTION_PLACEHOLDER
      = (ws, Return hint') ->
    is_hint_ignorable hint' = false ->
    code_caches_after hint' conf' ct cr ws2 ->
    snd (body hint' conf') = Return (code, scope, []) ->
    make_func_signature (func_checker_name n0) scope CODE_CHECKER_SIGNATURE
      conf' = (ws3, Return sig) ->
    make_func (func_checker_name n0) (sig +:+ code) scope
      "die_if_unbearable() or is_bearable() type-checker" (is_debug conf')
      = (ws4, Return func) ->
    checker_run
      (request_state s (S n0) ct cr
         (map EvCaptured ws ++ [EvCodeCheck hint' conf']
            ++ map EvCaptured ws2 ++ map EvCaptured ws3
            ++ map EvCaptured ws4 ++ [EvMade (func_checker_name n0)]
            ++ map EvIssued
                 (map (replace_warning_placeholder exception_prefix)
                    (ws ++ ws2 ++ ws3 ++ ws4))))
      (Return (Generated func)).

(** The exceptions raised while the request is served, by stage: validation
    of the configuration, sanification, code generation, the forward
    reference check, and synthesis (signature, then function). *)
Inductive raised_during (n : nat) : PyException -> Prop :=
| raised_by_die_unless_conf e :
    die_unless_conf conf = Raise e -> raised_during n e
| raised_by_sanify conf' e :
    die_unless_conf conf = Return conf' ->
    snd (sanify_hint_root_statement hint conf' EXCEPTION_PLACEHOLDER)
      = Raise e ->
    raised_during n e
| raised_by_make_code_check conf' hint' e :
    die_unless_conf conf = Return conf' ->
    snd (sanify_hint_root_statement hint conf' EXCEPTION_PLACEHOLDER)
      = Return hint' ->
    is_hint_ignorable hint' = false ->
    snd (body hint' conf') = Raise e ->
    raised_during n e
| raised_by_forward_ref conf' hint' code scope ref refs :
    die_unless_conf conf = Return conf' ->
    snd (sanify_hint_root_statement hint conf' EXCEPTION_PLACEHOLDER)
      = Return hint' ->
    is_hint_ignorable hint' = false ->
    snd (body hint' conf') = Return (code, scope, ref :: refs) ->
    raised_during n (forward_ref_exception hint' ref)
| raised_by_make_func_signature conf' hint' code scope e :
    die_unless_conf conf = Return conf' ->
    snd (sanify_hint_root_statement hint conf' EXCEPTION_PLACEHOLDER)
      = Return hint' ->
    is_hint_ignorable hint' = false ->
    snd (body hint' conf') = Return (code, scope, []) ->
    snd (make_func_signature (func_checker_name n) scope
           CODE_CHECKER_SIGNATURE conf') = Raise e ->
    raised_during n e
| raised_by_make_func conf' hint' code scope sig e :
    die_unless_conf conf = Return conf' ->
    snd (sanify_hint_root_statement hint conf' EXCEPTION_PLACEHOLDER)
      = Return hint' ->
    is_hint_ignorable hint' = false ->
    snd (body hint' conf') = Return (code, scope, []) ->
    snd (make_func_signature (func_checker_name n) scope
           CODE_CHECKER_SIGNATURE conf') = Return sig ->
    snd (make_func (func_checker_name n) (sig +:+ code) scope
           "die_if_unbearable() or is_bearable() type-checker"
           (is_debug conf')) = Raise e ->
    raised_during n e.

End Runs.

End Factories.

End Check.

(** ** A concrete world *)

(** The constants and collaborators of the factories instantiated on a small
    universe of hints, after the spec's data model and expression compiler.
    It provides the concrete inputs at which the general statements are
    exercised. *)
Module Scenario.

Import Check.

(** Modelled from the spec: hints as the caller supplies them (the spec's
    data model): the hint admitting every object, a plain type, a union, a
    container with an element hint, a relative forward reference, a
    deprecated alias of another hint, and an unsupported object. *)
Inductive Hint :=
| HAny
| HType (cls : string)
| HUnion (left right : Hint)
| HContainer (origin : string) (element : Hint)
| HForwardRef (name : string)
| HDeprecated (alias : string) (hint : Hint)
| HUnsupported (description : string).

Global Instance Hint_eq_dec : EqDecision Hint.
Proof. solve_decision. Defined.

Fixpoint Hint_encode (h : Hint) : gen_tree string :=
  match h with
  | HAny => GenNode 0 []
  | HType cls => GenNode 1 [GenLeaf cls]
  | HUnion l r => GenNode 2 [Hint_encode l; Hint_encode r]
  | HContainer origin element => GenNode 3 [GenLeaf origin; Hint_encode element]
  | HForwardRef name => GenNode 4 [GenLeaf name]
  | HDeprecated alias h => GenNode 5 [GenLeaf alias; Hint_encode h]
  | HUnsupported d => GenNode 6 [GenLeaf d]
  end.

Fixpoint Hint_decode (t : gen_tree string) : Hint :=
  match t with
  | GenNode 1 [GenLeaf cls] => HType cls
  | GenNode 2 [l; r] => HUnion (Hint_decode l) (Hint_decode r)
  | GenNode 3 [GenLeaf origin; element] => HContainer origin (Hint_decode element)
  | GenNode 4 [GenLeaf name] => HForwardRef name
  | GenNode 5 [GenLeaf alias; h] => HDeprecated alias (Hint_decode h)
  | GenNode 6 [GenLeaf d] => HUnsupported d
  | _ => HAny
  end.

Global Instance Hint_countable : Countable Hint.
Proof.
  apply (inj_countable' Hint_encode Hint_decode).
  intros h. induction h; simpl; congruence.
Defined.

Fixpoint hint_repr (h : Hint) : string :=
  match h with
  | HAny => "typing.Any"
  | HType cls => cls
  | HUnion l r => hint_repr l +:+ " | " +:+ hint_repr r
  | HContainer origin element => origin +:+ "[" +:+ hint_repr element +:+ "]"
  | HForwardRef name => "'" +:+ name +:+ "'"
  | HDeprecated alias h => alias
  | HUnsupported d => d
  end.

(** [isinstance(obj, cls)] on the builtin classes, by class name. *)
Definition isinstance (obj : PyValue) (cls : string) : bool :=
  bool_decide (cls = "object") ||
  match obj with
  | VNone => bool_decide (cls = "NoneType")
  | VBool _ => bool_decide (cls = "bool") || bool_decide (cls = "int")
  | VInt _ => bool_decide (cls = "int")
  | VStr _ => bool_decide (cls = "str")
  | VList _ => bool_decide (cls = "list")
  | VInstance cls' _ => bool_decide (cls = cls')
  end.

(** Modelled from the spec: the check the expression compiler emits for a
    hint (section 4.2).  A plain type is an [isinstance] test; a union is a
    short-circuiting disjunction; a container is the test of its origin type
    and of one element, selected by the random integer of the call. *)
Fixpoint check_hint (h : Hint) (obj : PyValue) (random_int : Z) : bool :=
  match h with
  | HAny => true
  | HType cls => isinstance obj cls
  | HUnion l r => check_hint l obj random_int || check_hint r obj random_int
  | HContainer origin element =>
      isinstance obj origin &&
      match obj with
      | VList items =>
          match items !! Z.to_nat (random_int `mod` Z.of_nat (length items)) with
          | Some item => check_hint element item random_int
          | None => true
          end
      | _ => true
      end
  | HForwardRef _ => false
  | HDeprecated _ h => check_hint h obj random_int
  | HUnsupported _ => false
  end.

(** The check of a hint samples an element, and so needs the random integer
    generator in scope. *)
Fixpoint samples (h : Hint) : bool :=
  match h with
  | HContainer _ _ => true
  | HUnion l r => samples l || samples r
  | HDeprecated _ h => samples h
  | _ => false
  end.

Fixpoint forward_refs (h : Hint) : list string :=
  match h with
  | HForwardRef name => [name]
  | HUnion l r => forward_refs l ++ forward_refs r
  | HContainer _ element => forward_refs element
  | HDeprecated _ h => forward_refs h
  | _ => []
  end.

(** Modelled from the spec: values for the constants of [checkmagic] and
    [_checksnip], which are declared outside these sources. *)
Definition magic : Magic := {|
  ARG_NAME_CONF := "__beartype_conf";
  ARG_NAME_GETRANDBITS := "__beartype_getrandbits";
  ARG_NAME_GET_VIOLATION := "__beartype_get_violation";
  ARG_NAME_HINT := "__beartype_hint";
  ARG_NAME_WARN := "__beartype_warn";
  CODE_PITH_ROOT_NAME_PLACEHOLDER := "?|PITH_ROOT_NAME`^";
  FUNC_CHECKER_NAME_PREFIX := "__beartype_checker_";
  CODE_CHECKER_SIGNATURE := "def {func_name}(obj):";
  CODE_RAISER_FUNC_PITH_CHECK_PREFIX := " if not ";
  CODE_RAISER_HINT_OBJECT_CHECK_PREFIX := " if not ";
  CODE_TESTER_CHECK_PREFIX := " return ";
  CODE_GET_FUNC_PITH_VIOLATION_format := fun arg_cls_stack arg_random_int pith_name =>
    ": violation = __beartype_get_violation(pith_name=" +:+ pith_name
      +:+ arg_cls_stack +:+ arg_random_int +:+ ");";
  CODE_GET_HINT_OBJECT_VIOLATION_format := fun arg_random_int =>
    ": violation = __beartype_get_violation(obj=obj" +:+ arg_random_int +:+ ");";
  CODE_GET_VIOLATION_CLS_STACK := ", cls_stack=cls_stack";
  CODE_GET_VIOLATION_RANDOM_INT := ", random_int=random_int";
  CODE_RAISE_VIOLATION := " raise violation";
  CODE_WARN_VIOLATION := " __beartype_warn(violation)";
  EXCEPTION_PLACEHOLDER := "$%ROOT_PITH_LABEL/~";
  ARG_NAME_RETURN_REPR := "'return'";
|}.

(** The name under which the compiled check is bound in the scope. *)
Definition ARG_NAME_CHECK : string := "__beartype_object_0".

(** Modelled from the spec: [sanify_hint_root_statement] reduces a deprecated
    alias to the hint it stands for, with a deprecation warning, and raises on
    an unsupported hint. *)
Definition sanify (h : Hint) (conf : BeartypeConf) (exception_prefix : string)
  : Outcome Hint :=
  match h with
  | HDeprecated alias h' =>
      ([mkWarning "BeartypeDecorHintPep585DeprecationWarning"
          (exception_prefix +:+ "PEP 484 type hint " +:+ alias +:+ " deprecated.")],
       Return h')
  | HUnsupported d =>
      ([], Raise (mkException BeartypeDecorHintNonpepException
                    (exception_prefix +:+ "type hint " +:+ d +:+ " unsupported.")))
  | _ => ([], Return h)
  end.

(** Modelled from the spec: [is_hint_ignorable] holds of the hints every
    object satisfies. *)
Definition ignorable (h : Hint) : bool :=
  match h with
  | HAny => true
  | HType cls => bool_decide (cls = "object")
  | _ => false
  end.

(** Modelled from the spec: [make_check_expr] returns the expression, the
    scope binding the compiled check (and the random integer generator when
    an element is sampled), and the relative forward references. *)
Definition check_expr (h : Hint) (conf : BeartypeConf)
    (cls_stack : option TypeStack) : Outcome (CodeGenerated Hint) :=
  let scope : LexicalScope Hint := {[ ARG_NAME_CHECK := ObjHint h ]} in
  let scope :=
    if samples h
    then <[@ARG_NAME_GETRANDBITS magic := getrandbits]> scope else scope in
  ([], Return ("__beartype_object_0({obj})", scope, forward_refs h)).

(** Modelled from the spec: [make_func_signature] renders the signature of
    the function under its name. *)
Definition func_signature (func_name : string) (func_scope : LexicalScope Hint)
    (code_signature_format : string) (conf : BeartypeConf) : Outcome string :=
  ([], Return ("def " +:+ func_name +:+ "(obj):")).

(** Modelled from the spec: [make_func] compiles the code into a function
    bound to the scope; it fails on text that is not a function definition. *)
Definition func (func_name func_code : string) (func_locals : LexicalScope Hint)
    (func_label : string) (is_debug : bool) : Outcome (PyFunction Hint) :=
  if String.prefix "def " func_code
  then ([], Return (mkPyFunction func_name func_code func_locals))
  else ([], Raise (mkException _BeartypeUtilCallableException
                     (func_label +:+ " " +:+ func_name +:+ " unparseable.")))
.

(** Modelled from the spec: running a generated function.  A tester returns
    the value of the check; a raiser (its scope binds the violation getter)
    returns [None] when the check passes and otherwise warns or raises, as its
    scope provides. *)
Definition exec (f : PyFunction Hint) (obj : PyValue) (random_int : Z)
  : Outcome PyReturn :=
  match func_locals f !! ARG_NAME_CHECK with
  | Some (ObjHint h) =>
      let passed := check_hint h obj random_int in
      match func_locals f !! @ARG_NAME_GET_VIOLATION magic with
      | None => ([], Return (RetBool passed))
      | Some _ =>
          if passed then ([], Return RetNone)
          else
            match func_locals f !! @ARG_NAME_WARN magic with
            | Some _ =>
                ([mkWarning "BeartypeDoorHintViolation"
                    ("violates type hint " +:+ hint_repr h)],
                 Return RetNone)
            | None =>
                ([], Raise (mkException BeartypeCallHintViolation
                              ("violates type hint " +:+ hint_repr h)))
            end
      end
  | _ => ([], Raise (mkException (OtherException "NameError")
                       "name '__beartype_object_0' is not defined"))
  end.

Definition collaborators : Collaborators Hint := {|
  repr := hint_repr;
  sanify_hint_root_statement := sanify;
  is_hint_ignorable := ignorable;
  make_check_expr := check_expr;
  make_func_signature := func_signature;
  make_func := func;
  exec_func := exec;
|}.

(** A signature renderer that renders nothing: the code under it is not a
    function definition, and [make_func] fails on it. *)
Definition func_signature_blank (func_name : string)
    (func_scope : LexicalScope Hint) (code_signature_format : string)
    (conf : BeartypeConf) : Outcome string :=
  ([], Return "").

Definition collaborators_unparseable : Collaborators Hint := {|
  repr := hint_repr;
  sanify_hint_root_statement := sanify;
  is_hint_ignorable := ignorable;
  make_check_expr := check_expr;
  make_func_signature := func_signature_blank;
  make_func := func;
  exec_func := exec;
|}.

(** A function maker that makes testers only: it fails on code whose scope
    binds a violation getter. *)
Definition func_testers_only (func_name func_code : string)
    (func_locals : LexicalScope Hint) (func_label : string) (is_debug : bool)
  : Outcome (PyFunction Hint) :=
  match func_locals !! @ARG_NAME_GET_VIOLATION magic with
  | Some _ =>
      ([], Raise (mkException _BeartypeUtilCallableException
                    (func_label +:+ " " +:+ func_name +:+ " unparseable.")))
  | None => func func_name func_code func_locals func_label is_debug
  end.

Definition collaborators_testers_only : Collaborators Hint := {|
  repr := hint_repr;
  sanify_hint_root_statement := sanify;
  is_hint_ignorable := ignorable;
  make_check_expr := check_expr;
  make_func_signature := func_signature;
  make_func := func_testers_only;
  exec_func := exec;
|}.

(** The default configuration, raising on violations, and one warning on the
    violations of parameters. *)
Definition BEARTYPE_CONF_DEFAULT : BeartypeConf := mkConf false false false false.
Definition conf_param_warn : BeartypeConf := mkConf false false true false.

Definition conf0 : ConfArgument := IsConf BEARTYPE_CONF_DEFAULT.

(** The hint [list[int]]. *)
Definition list_of_int : Hint := HContainer "list" (HType "int").

(** A process whose random generator draws 0, 1, 2, ... *)
Definition start : State Hint := @initial_state Hint _ _ (fun n => Z.of_nat n).

Abbreviation tester := (@make_func_tester Hint _ _ magic collaborators).
Abbreviation raiser := (@make_func_raiser Hint _ _ magic collaborators).
Abbreviation check := (@call_checker Hint _ _ magic collaborators).
Abbreviation run := (@run_requests Hint _ _ magic collaborators).

(** Whether a request returned, and the function it returned. *)
Definition returns (r : State Hint * Result (Callable Hint)) : bool :=
  match snd r with
  | Return _ => true
  | Raise _ => false
  end.

Definition returned (r : State Hint * Result (Callable Hint)) : Callable Hint :=
  match snd r with
  | Return func => func
  | Raise _ => Ignorable
  end.






(** Whether a request returned a generated function, and that function. *)
Definition is_generated (r : State Hint * Result (Callable Hint)) : bool :=
  match snd r with
  | Return (Generated _) => true
  | _ => false
  end.

Definition generated (r : State Hint * Result (Callable Hint))
  : PyFunction Hint :=
  match snd r with
  | Return (Generated f) => f
  | _ => mkPyFunction "" "" ∅
  end.

End Scenario.

(** * The AST transformer of the import hooks *)

Module Claw.

(** ** Abstract syntax *)

(** The nodes of Python's [ast], as far as the transformer reads or builds
    them.  A [Block] is a compound statement with a body and an else branch
    ([if], [for], [while], [with], [async def]); a [Statement] is any other
    statement, which has no child statement.  Source positions, the only thing
    [copy_node_metadata] and the [node_sibling] arguments set, are left
    out. *)
Inductive expr_context := Load | Store | Del.

Inductive expr :=
| Str (s : string)
| Name (id : string) (ctx : expr_context)
| Call (func : expr) (args : list expr) (keywords : list keyword)
| Expression (source : string)
with keyword :=
| Keyword (arg : option string) (value : expr).

Record alias := mkAlias {
  alias_name : string;
  alias_asname : option string;
}.

Inductive stmt :=
| Expr (value : expr)
| ImportFrom (module : option string) (names : list alias) (level : nat)
| AnnAssign (target annotation : expr) (value : option expr) (simple : Z)
| ClassDef (name : string) (body : list stmt) (decorator_list : list expr)
| FunctionDef (name : string) (args : list (string * option expr))
    (body : list stmt) (decorator_list : list expr) (returns : option expr)
| Block (cls : string) (body orelse : list stmt)
| Statement (cls : string) (source : string).

Inductive module :=
| Module (body : list stmt).

Inductive AST :=
| NodeModule (node : module)
| NodeStmt (node : stmt).

(** Induction on statements, with the property available for every child
    statement. *)
Section StmtInduction.

Variable P : stmt -> Prop.
Hypothesis P_Expr : forall value, P (Expr value).
Hypothesis P_ImportFrom : forall module names level,
  P (ImportFrom module names level).
Hypothesis P_AnnAssign : forall target annotation value simple,
  P (AnnAssign target annotation value simple).
Hypothesis P_ClassDef : forall name body decorator_list,
  Forall P body -> P (ClassDef name body decorator_list).
Hypothesis P_FunctionDef : forall name args body decorator_list returns,
  Forall P body -> P (FunctionDef name args body decorator_list returns).
Hypothesis P_Block : forall cls body orelse,
  Forall P body -> Forall P orelse -> P (Block cls body orelse).
Hypothesis P_Statement : forall cls source, P (Statement cls source).

Fixpoint stmt_children_ind (node : stmt) : P node :=
  let all :=
    fix all (nodes : list stmt) : Forall P nodes :=
      match nodes with
      | [] => @List.Forall_nil _ P
      | child :: rest =>
          @List.Forall_cons _ P child rest (stmt_children_ind child) (all rest)
      end in
  match node with
  | Expr value => P_Expr value
  | ImportFrom module names level => P_ImportFrom module names level
  | AnnAssign target annotation value simple =>
      P_AnnAssign target annotation value simple
  | ClassDef name body decorator_list =>
      P_ClassDef name body decorator_list (all body)
  | FunctionDef name args body decorator_list returns =>
      P_FunctionDef name args body decorator_list returns (all body)
  | Block cls body orelse => P_Block cls body orelse (all body) (all orelse)
  | Statement cls source => P_Statement cls source
  end.

End StmtInduction.

Definition AssertionError : ExceptionClass := OtherException "AssertionError".

(** The configuration as the transformer reads it: the switch of the PEP 526
    checks, and the options of the decorator, which it only compares. *)
Record BeartypeConf := mkConf {
  claw_is_pep526 : bool;
  conf_options : Check.BeartypeConf;
}.

Global Instance BeartypeConf_eq_dec : EqDecision BeartypeConf.
Proof. solve_decision. Defined.

(** The constants of [_clawmagic] and [confcls], which are declared outside
    these sources. *)
Class Magic := {
  NODE_CONTEXT_LOAD : expr_context;
  BEARTYPE_CLAW_STATE_MODULE_NAME : string;
  BEARTYPE_CLAW_STATE_SOURCE_ATTR_NAME : string;
  BEARTYPE_CLAW_STATE_TARGET_ATTR_NAME : string;
  BEARTYPE_DECORATOR_MODULE_NAME : string;
  BEARTYPE_DECORATOR_SOURCE_ATTR_NAME : string;
  BEARTYPE_DECORATOR_TARGET_ATTR_NAME : string;
  BEARTYPE_RAISER_MODULE_NAME : string;
  BEARTYPE_RAISER_SOURCE_ATTR_NAME : string;
  BEARTYPE_RAISER_TARGET_ATTR_NAME : string;
  BEARTYPE_CONF_DEFAULT : BeartypeConf;
}.

(** The callables imported from [_clawastmunge] and [_util.ast], which are
    declared outside these sources, taken as total functions.
    [decorate_node] adds a decoration to a class or callable node in place:
    it is given by the decorator list it leaves on the node. *)
Class Munge := {
  make_node_importfrom : string -> string -> string -> AST -> stmt;
  make_node_keyword_conf : AST -> keyword;
  decorate_node : stmt -> BeartypeConf -> list expr;
  is_node_callable_typed : stmt -> bool;
}.

(** ** The transformer *)

Section Transformer.

Context `{!Magic} `{!Munge}.

(** [self._conf_beartype]. *)
Variable _conf_beartype : BeartypeConf.

(** A method of the transformer: a function of [self._node_stack_beartype],
    whose last element is the top of the stack, that returns or raises. *)
Definition V (A : Type) : Type := list AST -> list AST * Result A.

Definition ret {A} (a : A) : V A := fun stack => (stack, Return a).

Definition bind {A B} (m : V A) (k : A -> V B) : V B := fun stack =>
  match m stack with
  | (stack', Return a) => k a stack'
  | (stack', Raise e) => (stack', Raise e)
  end.

Definition raise {A} (e : PyException) : V A := fun stack => (stack, Raise e).

Notation "'let*' x ':=' m 'in' k" := (bind m (fun x => k))
  (at level 10, x pattern, m at level 100, k at level 200).

(** [self._node_stack_beartype.append(node)]. *)
Definition append (node : AST) : V unit := fun stack =>
  (stack ++ [node], Return tt).

(** [self._node_stack_beartype.pop()]. *)
Definition pop : V unit := fun stack =>
  match stack with
  | [] => (stack, Raise (mkException IndexError "pop from empty list"))
  | _ => (removelast stack, Return tt)
  end.

(** [self._node_stack_beartype and
    isinstance(self._node_stack_beartype[-1], ClassDef)]. *)
Definition is_parent_ClassDef (stack : list AST) : bool :=
  match last stack with
  | Some (NodeStmt (ClassDef _ _ _)) => true
  | _ => false
  end.

Definition visit_AnnAssign (node : stmt) : V (list stmt) :=
  match node with
  | AnnAssign target annotation value simple =>
      if negb (claw_is_pep526 _conf_beartype)
         || (simple =? 0)%Z
         || bool_decide (value = None)
      then ret [node]
      else
        match target with
        | Name id _ =>
            let node_func_name :=
              Name BEARTYPE_RAISER_TARGET_ATTR_NAME NODE_CONTEXT_LOAD in
            let node_func_arg_pith := Name id NODE_CONTEXT_LOAD in
            let node_func_kwargs :=
              if decide (_conf_beartype <> BEARTYPE_CONF_DEFAULT)
              then [make_node_keyword_conf (NodeStmt node)]
              else [] in
            let node_func_call :=
              Call node_func_name [node_func_arg_pith; annotation]
                node_func_kwargs in
            ret [node; Expr node_func_call]
        | _ =>
            raise (mkException AssertionError
                     "Non-simple AST annotated assignment node target not Name instance.")
        end
  | _ => ret [node]
  end.

(** [NodeTransformer.visit] on a statement: the visitor of its class, or
    [generic_visit].  The result is the list of the statements replacing the
    node: the node itself, or the node and the statement added after it.

    [generic_visit] pushes the node, visits its child statements in order,
    splicing each result into the list the child came from, and pops the
    node.  Expressions have no visitor and no child statement: visiting them
    leaves the tree and the stack as they were. *)
Fixpoint visit (node : stmt) : V (list stmt) :=
  let visit_all :=
    fix visit_all (nodes : list stmt) : V (list stmt) :=
      match nodes with
      | [] => ret []
      | child :: rest =>
          let* new_values := visit child in
          let* rest_values := visit_all rest in
          ret (new_values ++ rest_values)
      end in
  match node with
  | ClassDef name body decorator_list =>
      (* visit_ClassDef *)
      let decorator_list := decorate_node node _conf_beartype in
      let* _ := append (NodeStmt (ClassDef name body decorator_list)) in
      let* body := visit_all body in
      let* _ := pop in
      ret [ClassDef name body decorator_list]
  | FunctionDef name args body decorator_list returns =>
      (* visit_FunctionDef *)
      fun stack =>
        if is_parent_ClassDef stack then ret [node] stack
        else
          let decorator_list :=
            if is_node_callable_typed node
            then decorate_node node _conf_beartype
            else decorator_list in
          (let* _ :=
             append (NodeStmt (FunctionDef name args body decorator_list
                                 returns)) in
           let* body := visit_all body in
           let* _ := pop in
           ret [FunctionDef name args body decorator_list returns]) stack
  | AnnAssign _ _ _ _ => visit_AnnAssign node
  | Block cls body orelse =>
      let* _ := append (NodeStmt node) in
      let* body := visit_all body in
      let* orelse := visit_all orelse in
      let* _ := pop in
      ret [Block cls body orelse]
  | Expr _ | ImportFrom _ _ _ | Statement _ _ =>
      let* _ := append (NodeStmt node) in
      let* _ := pop in
      ret [node]
  end.

(** The loop of [generic_visit] over a list of child statements. *)
Fixpoint visit_all (nodes : list stmt) : V (list stmt) :=
  match nodes with
  | [] => ret []
  | child :: rest =>
      let* new_values := visit child in
      let* rest_values := visit_all rest in
      ret (new_values ++ rest_values)
  end.

(** [generic_visit] on a module node. *)
Definition generic_visit_Module (node : module) : V module :=
  let 'Module body := node in
  let* _ := append (NodeModule node) in
  let* body := visit_all body in
  let* _ := pop in
  ret (Module body).

(** The test of the loop of [visit_Module]: the statement is a module
    docstring or a future import. *)
Definition is_docstring_or_future (node : stmt) : bool :=
  match node with
  | Expr (Str _) => true
  | ImportFrom (Some module) _ _ => bool_decide (module = "__future__")
  | _ => false
  end.

(** The loop of [visit_Module] over [enumerate(node.body)] from position
    [index]: the values of [node_import_beartype_attrs_index] and
    [node_import_prev] when the loop is left, [last] being their values before
    this position. *)
Fixpoint node_import_beartype_attrs
    (index : Z) (body : list stmt) (last : Z * AST) : Z * AST :=
  match body with
  | [] => last
  | node_import_prev :: rest =>
      if is_docstring_or_future node_import_prev
      then node_import_beartype_attrs (index + 1) rest
             (index, NodeStmt node_import_prev)
      else (index, NodeStmt node_import_prev)
  end.

Definition visit_Module (node : module) : V module :=
  let 'Module body := node in
  let '(node_import_beartype_attrs_index, node_import_prev) :=
    node_import_beartype_attrs 0 body (-1, NodeModule node)%Z in
  let body :=
    if (0 <=? node_import_beartype_attrs_index)%Z
    then
      let node_import_decorator :=
        make_node_importfrom BEARTYPE_DECORATOR_MODULE_NAME
          BEARTYPE_DECORATOR_SOURCE_ATTR_NAME
          BEARTYPE_DECORATOR_TARGET_ATTR_NAME node_import_prev in
      let node_import_raiser :=
        make_node_importfrom BEARTYPE_RAISER_MODULE_NAME
          BEARTYPE_RAISER_SOURCE_ATTR_NAME
          BEARTYPE_RAISER_TARGET_ATTR_NAME node_import_prev in
      let node_import_claw_state :=
        make_node_importfrom BEARTYPE_CLAW_STATE_MODULE_NAME
          BEARTYPE_CLAW_STATE_SOURCE_ATTR_NAME
          BEARTYPE_CLAW_STATE_TARGET_ATTR_NAME node_import_prev in
      (* node.body[index:0] = (...) *)
      take (Z.to_nat node_import_beartype_attrs_index) body
        ++ [node_import_decorator; node_import_raiser; node_import_claw_state]
        ++ drop (Z.to_nat node_import_beartype_attrs_index) body
    else body in
  generic_visit_Module (Module body).

(** *** Vocabulary of the properties *)

(** What a visit leaves behind: the stack as it found it when it returns,
    and a stack that extends it when it raises, which only an assertion
    does. *)
Definition stack_kept {A} (stack : list AST) (r : list AST * Result A)
  : Prop :=
  match r with
  | (stack', Return _) => stack' = stack
  | (stack', Raise e) =>
      stack `prefix_of` stack' /\ exception_cls e = AssertionError
  end.

(** Every annotated assignment of the tree that is simple and has a value
    assigns to a name. *)
Fixpoint targets_named (node : stmt) : bool :=
  match node with
  | AnnAssign target _ value simple =>
      (simple =? 0)%Z || bool_decide (value = None)
      || match target with Name _ _ => true | _ => false end
  | ClassDef _ body _ | FunctionDef _ _ body _ _ => forallb targets_named body
  | Block _ body orelse =>
      forallb targets_named body && forallb targets_named orelse
  | _ => true
  end.

Definition is_FunctionDef (node : stmt) : bool :=
  match node with
  | FunctionDef _ _ _ _ _ => true
  | _ => false
  end.

(** The statement is a call of the raiser under the name the module imports
    it as. *)
Definition is_raiser_call (node : stmt) : bool :=
  match node with
  | Expr (Call (Name id _) _ _) =>
      bool_decide (id = BEARTYPE_RAISER_TARGET_ATTR_NAME)
  | _ => false
  end.

(** A tree without what the transformer adds: every decorator list is
    emptied and every call of the raiser is removed. *)
Fixpoint erase (node : stmt) : stmt :=
  let erase_all :=
    fix erase_all (nodes : list stmt) : list stmt :=
      match nodes with
      | [] => []
      | child :: rest =>
          if is_raiser_call child then erase_all rest
          else erase child :: erase_all rest
      end in
  match node with
  | ClassDef name body _ => ClassDef name (erase_all body) []
  | FunctionDef name args body _ returns =>
      FunctionDef name args (erase_all body) [] returns
  | Block cls body orelse => Block cls (erase_all body) (erase_all orelse)
  | _ => node
  end.

Fixpoint erase_all (nodes : list stmt) : list stmt :=
  match nodes with
  | [] => []
  | child :: rest =>
      if is_raiser_call child then erase_all rest
      else erase child :: erase_all rest
  end.

(** The three imports [visit_Module] adds, made beside [node_import_prev]. *)
Definition beartype_imports (node_import_prev : AST) : list stmt :=
  [make_node_importfrom BEARTYPE_DECORATOR_MODULE_NAME
     BEARTYPE_DECORATOR_SOURCE_ATTR_NAME
     BEARTYPE_DECORATOR_TARGET_ATTR_NAME node_import_prev;
   make_node_importfrom BEARTYPE_RAISER_MODULE_NAME
     BEARTYPE_RAISER_SOURCE_ATTR_NAME
     BEARTYPE_RAISER_TARGET_ATTR_NAME node_import_prev;
   make_node_importfrom BEARTYPE_CLAW_STATE_MODULE_NAME
     BEARTYPE_CLAW_STATE_SOURCE_ATTR_NAME
     BEARTYPE_CLAW_STATE_TARGET_ATTR_NAME node_import_prev].

End Transformer.

End Claw.

(** ** A concrete world for the transformer *)

Module ClawScenario.

Import Claw.

(** The default configuration, and one with other options. *)
Definition conf_default : BeartypeConf :=
  mkConf true (Check.mkConf false false false false).
Definition conf_debug : BeartypeConf :=
  mkConf true (Check.mkConf true false false false).

(** Sample values for the constants of [_clawmagic]. *)
Definition magic : Magic := {|
  NODE_CONTEXT_LOAD := Load;
  BEARTYPE_CLAW_STATE_MODULE_NAME := "beartype.claw._clawstate";
  BEARTYPE_CLAW_STATE_SOURCE_ATTR_NAME := "claw_state";
  BEARTYPE_CLAW_STATE_TARGET_ATTR_NAME := "__claw_state_beartype__";
  BEARTYPE_DECORATOR_MODULE_NAME := "beartype._decor.decorcache";
  BEARTYPE_DECORATOR_SOURCE_ATTR_NAME := "beartype";
  BEARTYPE_DECORATOR_TARGET_ATTR_NAME := "__beartype__";
  BEARTYPE_RAISER_MODULE_NAME := "beartype.door._doorcheck";
  BEARTYPE_RAISER_SOURCE_ATTR_NAME := "die_if_unbearable";
  BEARTYPE_RAISER_TARGET_ATTR_NAME := "__die_if_unbearable_beartype__";
  BEARTYPE_CONF_DEFAULT := conf_default;
|}.

(** Sample helpers: an import of one attribute under a target name, the
    configuration looked up by a constant, the decorator prepended to the
    decorator list, and a callable typed when it annotates its return or a
    parameter. *)
Definition munge : Munge := {|
  make_node_importfrom := fun module_name source_attr_name target_attr_name _ =>
    ImportFrom (Some module_name)
      [mkAlias source_attr_name (Some target_attr_name)] 0;
  make_node_keyword_conf := fun _ =>
    Keyword (Some "conf") (Expression "__claw_state_beartype__.conf");
  decorate_node := fun node _ =>
    Name "__beartype__" Load ::
    match node with
    | ClassDef _ _ decorator_list
    | FunctionDef _ _ _ decorator_list _ => decorator_list
    | _ => []
    end;
  is_node_callable_typed := fun node =>
    match node with
    | FunctionDef _ args _ _ returns =>
        bool_decide (returns <> None)
        || existsb (fun arg => bool_decide (snd arg <> None)) args
    | _ => false
    end;
|}.

(** [muh_attr: int = 42]. *)
Definition muh_attr : stmt :=
  AnnAssign (Name "muh_attr" Store) (Name "int" Load)
    (Some (Expression "42")) 1.

(** [def muh_func(x: int): muh_attr: int = 42]. *)
Definition muh_func : stmt :=
  FunctionDef "muh_func" [("x", Some (Name "int" Load))] [muh_attr] [] None.

(** [class MuhClass: def muh_func...]. *)
Definition MuhClass : stmt := ClassDef "MuhClass" [muh_func] [].

(** A module with a docstring, a future import, a class, a function and an
    annotated assignment. *)
Definition muh_module : module :=
  Module [Expr (Str "Docstring.");
          ImportFrom (Some "__future__") [mkAlias "annotations" None] 0;
          MuhClass; muh_func; muh_attr].

(** An annotated assignment built by hand, marked simple, whose target is not
    a name, under an [if]. *)
Definition bad_attr : stmt :=
  Block "If"
    [AnnAssign (Expression "muh.attr") (Name "int" Load)
       (Some (Expression "42")) 1]
    [].

(** [muh_func] after the transformer: decorated, and its annotated assignment
    followed by the check of the assigned name. *)
Definition muh_func_checked : stmt :=
  FunctionDef "muh_func" [("x", Some (Name "int" Load))]
    [muh_attr;
     Expr (Call (Name "__die_if_unbearable_beartype__" Load)
             [Name "muh_attr" Load; Name "int" Load] [])]
    [Name "__beartype__" Load] None.

End ClawScenario.

(** * Properties *)

(** ** Strings *)

Lemma string_app_nil_r (s : string) : s +:+ "" = s.
Proof.
  induction s as [|c s IH]; [reflexivity|].
  change (String c (s +:+ "") = String c s). now rewrite IH.
Qed.

Lemma string_app_assoc (s1 s2 s3 : string) :
  (s1 +:+ s2) +:+ s3 = s1 +:+ (s2 +:+ s3).
Proof.
  induction s1 as [|c s1 IH]; [reflexivity|].
  change (String c ((s1 +:+ s2) +:+ s3) = String c (s1 +:+ (s2 +:+ s3))).
  now rewrite IH.
Qed.

Example str_replace_placeholder :
  Check.str_replace "$%ROOT_PITH_LABEL/~" "is_bearable() "
    "$%ROOT_PITH_LABEL/~type hint $%ROOT_PITH_LABEL/~"
  = "is_bearable() type hint is_bearable() ".
Proof. reflexivity. Qed.

Example str_replace_no_overlap :
  Check.str_replace "aa" "b" "aaaxa" = "baxa".
Proof. reflexivity. Qed.

(** ** The argumentative validator factory *)

Section ValeProperties.

Import Vale.

Lemma generate_additional_arg_string_cons name names :
  generate_additional_arg_string (name :: names)
  = ", " +:+ name +:+ generate_additional_arg_string names.
Proof.
  destruct names as [|name' names]; simpl; [|reflexivity].
  now rewrite string_app_nil_r.
Qed.

Lemma generate_additional_arg_string_spec names :
  generate_additional_arg_string names = comma_separated names.
Proof.
  induction names as [|name names IH]; [reflexivity|].
  rewrite generate_additional_arg_string_cons, IH. reflexivity.
Qed.

(** C10.  Subscripting the factory with a pure-Python callable that accepts at
    least one flexible argument and whose parameter names are [t, a1, ..., an]
    returns the validator whose code is the scope name of the callable applied
    to the [{obj}] placeholder followed by [a1, ..., an] in order, whose scope
    binds exactly that name to the callable, whose target argument name is [t]
    and whose remaining argument names are [a1, ..., an]; and
    [generate_additional_arg_string] is the concatenation of [", " + name]
    over any list of names. *)
Theorem IsArgumentative_getitem_code
    (func_scope_attr_name represent_func : PyObject -> string)
    (_basename : string) (f : PyFunction) (t : string) (rest : list string) :
  1 <= length (args_flexible f) ->
  get_func_arg_names f = t :: rest ->
  __getitem__ func_scope_attr_name represent_func _basename
    (SubscriptObject (PurePython f))
  = Return
      (mkValidator (PurePython f)
         (func_scope_attr_name (PurePython f) +:+ "({obj}"
            +:+ comma_separated rest +:+ ")")
         {[ func_scope_attr_name (PurePython f) := PurePython f ]}
         (_basename +:+ "[" +:+ represent_func (PurePython f) +:+ "]")
         t rest)
  /\ forall names : list string,
       generate_additional_arg_string names = comma_separated names.
Proof.
  intros Hlen Hargs. split; [|apply generate_additional_arg_string_spec].
  unfold __getitem__, die_unless_validator_tester,
    die_unless_func_args_len_flexible_greater_or_equal; simpl.
  destruct (decide (1 <= length (args_flexible f))) as [_|Hn]; [|lia].
  rewrite Hargs. unfold add_func_scope_attr.
  rewrite generate_additional_arg_string_spec, insert_empty.
  now rewrite string_app_assoc.
Qed.

Lemma IsArgumentative_getitem_code_witness :
  let my_check := mkFunction 7 ["out_list"; "in_list"] [] in
  __getitem__ (fun _ => "__beartype_object_7") (fun _ => "my_check")
    "IsArgumentative" (SubscriptObject (PurePython my_check))
  = Return
      (mkValidator (PurePython my_check)
         "__beartype_object_7({obj}, in_list)"
         {[ "__beartype_object_7" := PurePython my_check ]}
         "IsArgumentative[my_check]" "out_list" ["in_list"]).
Proof.
  intros my_check.
  exact (proj1 (IsArgumentative_getitem_code
                  (fun _ => "__beartype_object_7") (fun _ => "my_check")
                  "IsArgumentative" my_check "out_list" ["in_list"]
                  ltac:(simpl; lia) eq_refl)).
Defined.

(** X9.  Subscripting the factory returns a validator exactly for a single
    pure-Python callable with at least one flexible parameter; the validator
    then wraps that callable, its target argument is the first flexible
    parameter, and the target followed by the remaining arguments is the full
    list of parameter names, none lost or reordered.  Every other subscription
    raises [BeartypeValeSubscriptionException]; the indexing of the argument
    names never fails. *)
Theorem IsArgumentative_getitem_outcome
    (func_scope_attr_name represent_func : PyObject -> string)
    (_basename : string) (args : Subscription) :
  match __getitem__ func_scope_attr_name represent_func _basename args with
  | Return validator =>
      exists f first,
        args = SubscriptObject (PurePython f) /\
        is_valid validator = PurePython f /\
        head (args_flexible f) = Some first /\
        is_valid_target_arg_name validator = first /\
        is_valid_target_arg_name validator
          :: is_valid_remaining_arg_names validator
        = args_flexible f ++ args_rest f
  | Raise e =>
      exception_cls e = BeartypeValeSubscriptionException /\
      match args with
      | SubscriptObject (PurePython f) => args_flexible f = []
      | _ => True
      end
  end.
Proof.
  destruct args as [[f|name|repr]|items]; simpl; try (split; [reflexivity|exact I]).
  unfold __getitem__, die_unless_validator_tester,
    die_unless_func_args_len_flexible_greater_or_equal; simpl.
  destruct (decide (1 <= length (args_flexible f))) as [Hlen|Hlen].
  - unfold get_func_arg_names.
    destruct (args_flexible f) as [|first flexible] eqn:Hflex;
      [simpl in Hlen; lia|].
    simpl. exists f, first. rewrite Hflex. auto.
  - simpl. split; [reflexivity|].
    destruct (args_flexible f); [reflexivity|simpl in Hlen; lia].
Qed.

(** X11.  The argument string of a concatenation of name lists is the
    concatenation of their argument strings, and it is empty only for the
    empty list. *)
Theorem generate_additional_arg_string_app (names1 names2 : list string) :
  generate_additional_arg_string (names1 ++ names2)
  = generate_additional_arg_string names1
      +:+ generate_additional_arg_string names2 /\
  (generate_additional_arg_string names1 = "" <-> names1 = []).
Proof.
  split.
  - induction names1 as [|name names1 IH]; [reflexivity|].
    change ((name :: names1) ++ names2) with (name :: (names1 ++ names2)).
    rewrite !generate_additional_arg_string_cons, IH.
    now rewrite !string_app_assoc.
  - destruct names1 as [|name names1]; [tauto|].
    rewrite generate_additional_arg_string_cons.
    split; discriminate.
Qed.

End ValeProperties.

(** ** The violation handler *)

Section ViolationProperties.

Import Check.

Context {Hint : Type} `{!Magic}.

(** C3.  For every configuration and call-site flag, the snippet generated to
    handle a violation is the warning snippet exactly when the switch of that
    call site is set (and then [warnings.warn] is bound in the scope), and is
    otherwise the snippet raising the violation. *)
Theorem _make_code_raiser_violation_policy
    (conf : BeartypeConf) (func_scope : LexicalScope Hint)
    (is_param : option bool) :
  CODE_WARN_VIOLATION <> CODE_RAISE_VIOLATION ->
  (fst (_make_code_raiser_violation conf func_scope is_param)
     = CODE_WARN_VIOLATION <-> is_violation_warn conf is_param = true) /\
  (fst (_make_code_raiser_violation conf func_scope is_param)
     = CODE_RAISE_VIOLATION <-> is_violation_warn conf is_param = false) /\
  (is_violation_warn conf is_param = true ->
   snd (_make_code_raiser_violation conf func_scope is_param) !! ARG_NAME_WARN
     = Some warn).
Proof.
  intros Hne. unfold _make_code_raiser_violation.
  change (match is_param with
          | Some true => _is_violation_param_warn conf
          | Some false => _is_violation_return_warn conf
          | None => _is_violation_door_warn conf
          end) with (is_violation_warn conf is_param).
  destruct (is_violation_warn conf is_param); simpl.
  - split; [tauto|]. split; [|intros _; apply lookup_insert_eq].
    split; [intros Heq; now destruct Hne | discriminate].
  - split; [|split; [tauto | discriminate]].
    split; [intros Heq; now destruct Hne | discriminate].
Qed.

End ViolationProperties.

Lemma _make_code_raiser_violation_policy_witness :
  let conf := Scenario.conf_param_warn in
  fst (@Check._make_code_raiser_violation Scenario.Hint Scenario.magic
         conf ∅ (Some true)) = " __beartype_warn(violation)" /\
  fst (@Check._make_code_raiser_violation Scenario.Hint Scenario.magic
         conf ∅ (Some false)) = " raise violation" /\
  fst (@Check._make_code_raiser_violation Scenario.Hint Scenario.magic
         conf ∅ None) = " raise violation".
Proof.
  intros conf.
  assert (Hne : @Check.CODE_WARN_VIOLATION Scenario.magic
                <> @Check.CODE_RAISE_VIOLATION Scenario.magic)
    by (vm_compute; discriminate).
  split; [|split].
  - apply (proj1 (@_make_code_raiser_violation_policy Scenario.Hint
                    Scenario.magic conf ∅ (Some true) Hne)). reflexivity.
  - apply (proj1 (proj2 (@_make_code_raiser_violation_policy Scenario.Hint
                    Scenario.magic conf ∅ (Some false) Hne))). reflexivity.
  - apply (proj1 (proj2 (@_make_code_raiser_violation_policy Scenario.Hint
                    Scenario.magic conf ∅ None Hne))). reflexivity.
Defined.

(** ** The function factories *)

Section FactoryProperties.

Import Check.

Context {Hint : Type} `{Countable Hint} `{!Magic} `{!Collaborators Hint}.

Implicit Types (s : State Hint) (w : PyWarning) (e : PyException).
Implicit Types (t r : gmap (Hint * ConfArgument) (Callable Hint)).
Implicit Types (ct cr : gmap (Hint * BeartypeConf) (CodeGenerated Hint)).
Implicit Types (tr : list (Event Hint)) (log ws : list PyWarning).

Lemma issue_warnings_recording ws n t r ct cr log tr src d :
  issue_warnings ws (mkState n t r ct cr (Some log) tr src d)
  = (mkState n t r ct cr (Some (log ++ ws)) (tr ++ map EvCaptured ws) src d,
     Return tt).
Proof.
  revert log tr. induction ws as [|w ws IH]; intros log tr; simpl.
  - unfold ret. now rewrite !app_nil_r.
  - unfold bind, issue_warning; simpl. unfold set_trace, set_warnings_recorded; simpl.
    rewrite IH. now rewrite <- !app_assoc.
Qed.

Lemma issue_warnings_issued ws n t r ct cr tr src d :
  issue_warnings ws (mkState n t r ct cr None tr src d)
  = (mkState n t r ct cr None (tr ++ map EvIssued ws) src d, Return tt).
Proof.
  revert tr. induction ws as [|w ws IH]; intros tr; simpl.
  - unfold ret. now rewrite app_nil_r.
  - unfold bind, issue_warning; simpl. unfold set_trace; simpl.
    rewrite IH. now rewrite <- app_assoc.
Qed.

Lemma call_recording {A} (o : Outcome A) n t r ct cr log tr src d :
  call o (mkState n t r ct cr (Some log) tr src d)
  = (mkState n t r ct cr (Some (log ++ fst o))
       (tr ++ map EvCaptured (fst o)) src d, snd o).
Proof. unfold call. now rewrite issue_warnings_recording. Qed.

Lemma call_issued {A} (o : Outcome A) n t r ct cr tr src d :
  call o (mkState n t r ct cr None tr src d)
  = (mkState n t r ct cr None (tr ++ map EvIssued (fst o)) src d, snd o).
Proof. unfold call. now rewrite issue_warnings_issued. Qed.

Lemma make_code_tester_check_spec :
  code_factory_spec make_code_tester_check make_code_tester_check_body.
Proof.
  intros hint conf n t r ct cr log tr src d Hct Hcr.
  unfold make_code_tester_check, callable_cached; simpl.
  destruct (ct !! (hint, conf)) as [generated|] eqn:Hlook.
  - exists ct, cr, []. simpl. rewrite !app_nil_r.
    rewrite (Hct _ _ _ Hlook). auto.
  - rewrite call_recording.
    destruct (snd (make_code_tester_check_body hint conf)) as [generated|e] eqn:Hbody.
    + exists (<[(hint, conf) := generated]> ct), cr,
        (fst (make_code_tester_check_body hint conf)).
      simpl. split; [reflexivity|]. split; [|auto].
      intros h' c' g'. destruct (decide ((hint, conf) = (h', c'))) as [[= <- <-]|Hne].
      * rewrite lookup_insert_eq. intros [= <-]. exact Hbody.
      * rewrite lookup_insert_ne by exact Hne. apply Hct.
    + exists ct, cr, (fst (make_code_tester_check_body hint conf)). simpl. auto.
Qed.

Lemma make_code_raiser_hint_object_check_spec :
  code_factory_spec make_code_raiser_hint_object_check
    make_code_raiser_hint_object_check_body.
Proof.
  intros hint conf n t r ct cr log tr src d Hct Hcr.
  unfold make_code_raiser_hint_object_check, callable_cached; simpl.
  destruct (cr !! (hint, conf)) as [generated|] eqn:Hlook.
  - exists ct, cr, []. simpl. rewrite !app_nil_r.
    rewrite (Hcr _ _ _ Hlook). auto.
  - rewrite call_recording.
    destruct (snd (make_code_raiser_hint_object_check_body hint conf))
      as [generated|e] eqn:Hbody.
    + exists ct, (<[(hint, conf) := generated]> cr),
        (fst (make_code_raiser_hint_object_check_body hint conf)).
      simpl. split; [reflexivity|]. split; [auto|]. split; [|auto].
      intros h' c' g'. destruct (decide ((hint, conf) = (h', c'))) as [[= <- <-]|Hne].
      * rewrite lookup_insert_eq. intros [= <-]. exact Hbody.
      * rewrite lookup_insert_ne by exact Hne. apply Hcr.
    + exists ct, cr, (fst (make_code_raiser_hint_object_check_body hint conf)).
      simpl. auto.
Qed.

Lemma reissue_if_any ws prefix n t r ct cr tr src d :
  match ws with
  | [] => fun s => (s, Return tt)
  | _ :: _ => reissue_warnings_placeholder ws prefix
  end (mkState n t r ct cr None tr src d)
  = (mkState n t r ct cr None
       (tr ++ map EvIssued (map (replace_warning_placeholder prefix) ws))
       src d, Return tt).
Proof.
  destruct ws as [|w ws].
  - simpl. now rewrite app_nil_r.
  - unfold reissue_warnings_placeholder. apply issue_warnings_issued.
Qed.

Ltac close_run Hrun :=
  unfold request_state, func_checker_name, reraised, forward_ref_exception,
    get_hint_pep484585_ref_names_relative_to in *;
  simpl in Hrun |- *;
  rewrite ?app_nil_r, <- ?app_assoc in Hrun;
  rewrite ?app_nil_r, <- ?app_assoc;
  simpl in Hrun |- *;
  exact Hrun.

Lemma _make_func_checker_run mk body hint conf prefix s :
  code_factory_spec mk body ->
  warnings_recorded s = None ->
  code_cache_sound (make_code_tester_check_cache s) make_code_tester_check_body ->
  code_cache_sound (make_code_raiser_hint_object_check_cache s)
    make_code_raiser_hint_object_check_body ->
  checker_run body hint conf prefix s
    (fst (_make_func_checker hint conf mk prefix s))
    (snd (_make_func_checker hint conf mk prefix s)).
Proof.
  intros Hmk Hrec Hct Hcr.
  destruct s as [n t r ct cr rec tr src d]; simpl in *; subst rec.
  set (S0 := mkState n t r ct cr None tr src d).
  unfold _make_func_checker, try_except, catch_warnings, bind, ret,
    set_warnings_recorded; simpl.
  unfold call at 1; simpl. unfold ret.
  destruct (die_unless_conf conf) as [conf'|e] eqn:Hconf; simpl.
  2:{ pose proof (run_conf_raises body hint conf prefix S0 e Hconf) as Hrun.
      close_run Hrun. }
  unfold call.
  destruct (sanify_hint_root_statement hint conf' EXCEPTION_PLACEHOLDER)
    as [ws [hint'|e]] eqn:Hsan; simpl;
    rewrite issue_warnings_recording; simpl.
  2:{ pose proof (run_sanify_raises body hint conf prefix S0 conf' ws e
                    Hconf Hsan) as Hrun.
      close_run Hrun. }
  destruct (is_hint_ignorable hint') eqn:Hign; simpl.
  { pose proof (run_ignorable body hint conf prefix S0 conf' ws hint'
                  Hconf Hsan Hign) as Hrun.
    close_run Hrun. }
  unfold set_trace; simpl.
  destruct (Hmk hint' conf' n t r ct cr ws
              ((tr ++ map EvCaptured ws) ++ [EvCodeCheck hint' conf']) src d
              Hct Hcr)
    as (ct' & cr' & ws2 & Hrunmk & Hct' & Hcr' & Hws2).
  rewrite Hrunmk.
  assert (Hafter : code_caches_after body hint' conf' ct' cr' ws2)
    by (split; [|split]; assumption).
  destruct (snd (body hint' conf')) as [[[code scope] refs]|e] eqn:Hbody.
  2:{ pose proof (run_code_raises body hint conf prefix S0 conf' ws hint'
                    ct' cr' ws2 e Hconf Hsan Hign Hafter Hbody) as Hrun.
      close_run Hrun. }
  destruct refs as [|ref refs]; simpl.
  2:{ pose proof (run_forward_ref body hint conf prefix S0 conf' ws hint'
                    ct' cr' ws2 code scope ref refs Hconf Hsan Hign Hafter
                    Hbody) as Hrun.
      close_run Hrun. }
  unfold set_counter; simpl.
  destruct (make_func_signature (FUNC_CHECKER_NAME_PREFIX +:+ pretty n) scope
              CODE_CHECKER_SIGNATURE conf') as [ws3 [sig|e]] eqn:Hsig; simpl;
    rewrite issue_warnings_recording; simpl.
  2:{ pose proof (run_signature_raises body hint conf prefix S0 conf' ws hint'
                    ct' cr' ws2 code scope ws3 e Hconf Hsan Hign Hafter
                    Hbody Hsig) as Hrun.
      close_run Hrun. }
  destruct (make_func (FUNC_CHECKER_NAME_PREFIX +:+ pretty n) (sig +:+ code)
              scope "die_if_unbearable() or is_bearable() type-checker"
              (is_debug conf')) as [ws4 [func|e]] eqn:Hfunc; simpl;
    rewrite issue_warnings_recording; simpl.
  2:{ pose proof (run_make_func_raises body hint conf prefix S0 conf' ws hint'
                    ct' cr' ws2 code scope ws3 sig ws4 e Hconf Hsan Hign
                    Hafter Hbody Hsig Hfunc) as Hrun.
      close_run Hrun. }
  pose proof (run_made body hint conf prefix S0 conf' ws hint'
                ct' cr' ws2 code scope ws3 sig ws4 func Hconf Hsan Hign
                Hafter Hbody Hsig Hfunc) as Hrun.
  rewrite reissue_if_any; simpl.
  close_run Hrun.
Qed.

(** *** Events *)

Lemma omap_map_None {A B C} (f : B -> option C) (g : A -> B) (l : list A) :
  (forall x, f (g x) = None) -> omap f (map g l) = [].
Proof.
  intros Hfg. induction l as [|x l IH]; [reflexivity|].
  simpl. rewrite Hfg. exact IH.
Qed.

Lemma omap_map_Some {A B} (f : B -> option A) (g : A -> B) (l : list A) :
  (forall x, f (g x) = Some x) -> omap f (map g l) = l.
Proof.
  intros Hfg. induction l as [|x l IH]; [reflexivity|].
  simpl. rewrite Hfg. simpl. f_equal. exact IH.
Qed.

Lemma made_names_app (l k : list (Event Hint)) :
  made_names (l ++ k) = made_names l ++ made_names k.
Proof. apply omap_app. Qed.

Lemma made_names_captured ws : made_names (map (@EvCaptured Hint) ws) = [].
Proof. now apply omap_map_None. Qed.

Lemma made_names_issued ws : made_names (map (@EvIssued Hint) ws) = [].
Proof. now apply omap_map_None. Qed.

Lemma code_check_calls_app (l k : list (Event Hint)) :
  code_check_calls (l ++ k) = code_check_calls l ++ code_check_calls k.
Proof. apply omap_app. Qed.

Lemma code_check_calls_captured ws :
  code_check_calls (map (@EvCaptured Hint) ws) = [].
Proof. now apply omap_map_None. Qed.

Lemma code_check_calls_issued ws :
  code_check_calls (map (@EvIssued Hint) ws) = [].
Proof. now apply omap_map_None. Qed.

Lemma captured_warnings_app (l k : list (Event Hint)) :
  captured_warnings (l ++ k) = captured_warnings l ++ captured_warnings k.
Proof. apply omap_app. Qed.

Lemma captured_warnings_captured ws :
  captured_warnings (map (@EvCaptured Hint) ws) = ws.
Proof. now apply omap_map_Some. Qed.

Lemma captured_warnings_issued ws :
  captured_warnings (map (@EvIssued Hint) ws) = [].
Proof. now apply omap_map_None. Qed.

Lemma issued_warnings_app (l k : list (Event Hint)) :
  issued_warnings (l ++ k) = issued_warnings l ++ issued_warnings k.
Proof. apply omap_app. Qed.

Lemma issued_warnings_captured ws :
  issued_warnings (map (@EvCaptured Hint) ws) = [].
Proof. now apply omap_map_None. Qed.

Lemma issued_warnings_issued ws :
  issued_warnings (map (@EvIssued Hint) ws) = ws.
Proof. now apply omap_map_Some. Qed.


(** *** Names *)

Lemma func_checker_name_inj n m :
  func_checker_name n = func_checker_name m -> n = m.
Proof.
  unfold func_checker_name. intros Heq.
  apply String.app_inj in Heq. now apply pretty_nat_inj in Heq.
Qed.

Lemma names_fresh_mono n m names :
  n <= m -> names_fresh n names -> names_fresh m names.
Proof.
  intros Hle [Hnodup Hall]. split; [exact Hnodup|].
  eapply Forall_impl; [exact Hall|].
  intros name (k & Hk & ->). exists k. split; [lia|reflexivity].
Qed.

Lemma names_fresh_snoc n names :
  names_fresh n names ->
  names_fresh (S n) (names ++ [func_checker_name n]).
Proof.
  intros [Hnodup Hall]. split.
  - apply NoDup_app. split; [exact Hnodup|]. split; [|apply NoDup_singleton].
    intros name Hin Hin'. apply list_elem_of_singleton in Hin'. subst name.
    rewrite Forall_forall in Hall. destruct (Hall _ Hin) as (k & Hk & Heq).
    apply func_checker_name_inj in Heq. lia.
  - apply Forall_app. split.
    + eapply Forall_impl; [exact Hall|].
      intros name (k & Hk & ->). exists k. split; [lia|reflexivity].
    + apply Forall_singleton. exists n. split; [lia|reflexivity].
Qed.

(** *** The invariant *)

Ltac simpl_events :=
  unfold request_state, set_make_func_tester_cache,
    set_make_func_raiser_cache;
  cbn [trace _func_checker_name_counter];
  rewrite ?made_names_app, ?code_check_calls_app, ?captured_warnings_app,
    ?issued_warnings_app;
  rewrite ?made_names_captured, ?made_names_issued,
    ?code_check_calls_captured, ?code_check_calls_issued,
    ?captured_warnings_captured, ?captured_warnings_issued,
    ?issued_warnings_captured, ?issued_warnings_issued;
  simpl; rewrite ?app_nil_r; simpl.

Lemma wf_initial_state source : wf_state (initial_state source).
Proof.
  split; simpl; try done.
  split; [apply NoDup_nil_2 | apply Forall_nil_2].
Qed.

Lemma wf_request_state s n ct cr events :
  wf_state s ->
  code_cache_sound ct make_code_tester_check_body ->
  code_cache_sound cr make_code_raiser_hint_object_check_body ->
  names_fresh n (made_names (trace s ++ events)) ->
  wf_state (request_state s n ct cr events).
Proof.
  intros [Hrec Ht Hr _ _ _] Hct Hcr Hnames. split; simpl; assumption || done.
Qed.

Lemma checker_run_wf body hint conf prefix s s1 res :
  wf_state s ->
  checker_run body hint conf prefix s s1 res ->
  wf_state s1 /\
  make_func_tester_cache s1 = make_func_tester_cache s /\
  make_func_raiser_cache s1 = make_func_raiser_cache s /\
  (forall func, res = Return func -> checker_sound body hint conf func).
Proof.
  intros Hwf Hrun.
  pose proof (wf_code_tester_cache s Hwf) as Hct.
  pose proof (wf_code_raiser_cache s Hwf) as Hcr.
  pose proof (wf_names s Hwf) as Hnames.
  assert (Hnames' : names_fresh (S (_func_checker_name_counter s))
                      (made_names (trace s)))
    by (eapply names_fresh_mono; [|exact Hnames]; lia).
  destruct Hrun;
    repeat match goal with
           | Hc : code_caches_after _ _ _ _ _ _ |- _ =>
               destruct Hc as (? & ? & ?)
           end;
    (split; [apply wf_request_state; try assumption; simpl_events;
             try assumption
            |split; [reflexivity|split; [reflexivity|]]]);
    try (intros func' Heq; discriminate Heq).
  - intros func' [= <-]. exists conf', hint'.
    repeat match goal with
           | Hs : sanify_hint_root_statement _ _ _ = _ |- _ => rewrite Hs
           | Hi : is_hint_ignorable _ = _ |- _ => rewrite Hi
           end.
    auto.
  - now apply names_fresh_snoc.
  - intros func' [= <-]. exists conf', hint'.
    repeat match goal with
           | Hs : sanify_hint_root_statement _ _ _ = _ |- _ => rewrite Hs
           | Hi : is_hint_ignorable _ = _ |- _ => rewrite Hi
           end.
    eauto.
Qed.

Lemma func_cache_sound_insert cache body hint conf value :
  func_cache_sound cache body ->
  checker_sound body hint conf value ->
  func_cache_sound (<[(hint, conf) := value]> cache) body.
Proof.
  intros Hcache Hsound h c f.
  destruct (decide ((hint, conf) = (h, c))) as [[= <- <-]|Hne].
  - rewrite lookup_insert_eq. now intros [= <-].
  - rewrite lookup_insert_ne by exact Hne. apply Hcache.
Qed.

(** *** The memoized function factories *)

Lemma make_func_tester_hit hint conf s func :
  make_func_tester_cache s !! (hint, conf) = Some func ->
  make_func_tester hint conf s = (s, Return func).
Proof. unfold make_func_tester, callable_cached. now intros ->. Qed.

Lemma make_func_raiser_hit hint conf s func :
  make_func_raiser_cache s !! (hint, conf) = Some func ->
  make_func_raiser hint conf s = (s, Return func).
Proof. unfold make_func_raiser, callable_cached. now intros ->. Qed.

Lemma make_func_tester_miss hint conf s :
  wf_state s ->
  make_func_tester_cache s !! (hint, conf) = None ->
  exists s1,
    checker_run make_code_tester_check_body hint conf exception_prefix_default
      s s1 (snd (make_func_tester hint conf s)) /\
    fst (make_func_tester hint conf s)
    = match snd (make_func_tester hint conf s) with
      | Return func =>
          set_make_func_tester_cache
            (<[(hint, conf) := func]> (make_func_tester_cache s1)) s1
      | Raise _ => s1
      end.
Proof.
  intros Hwf Hmiss.
  pose proof (_make_func_checker_run make_code_tester_check
                make_code_tester_check_body hint conf exception_prefix_default
                s make_code_tester_check_spec (wf_not_recording s Hwf)
                (wf_code_tester_cache s Hwf) (wf_code_raiser_cache s Hwf))
    as Hrun.
  unfold make_func_tester, callable_cached. rewrite Hmiss.
  destruct (_make_func_checker hint conf make_code_tester_check
              exception_prefix_default s) as [s1 [func|e]];
    exists s1; simpl in *; auto.
Qed.

Lemma make_func_raiser_miss hint conf s :
  wf_state s ->
  make_func_raiser_cache s !! (hint, conf) = None ->
  exists s1,
    checker_run make_code_raiser_hint_object_check_body hint conf
      exception_prefix_default s s1 (snd (make_func_raiser hint conf s)) /\
    fst (make_func_raiser hint conf s)
    = match snd (make_func_raiser hint conf s) with
      | Return func =>
          set_make_func_raiser_cache
            (<[(hint, conf) := func]> (make_func_raiser_cache s1)) s1
      | Raise _ => s1
      end.
Proof.
  intros Hwf Hmiss.
  pose proof (_make_func_checker_run make_code_raiser_hint_object_check
                make_code_raiser_hint_object_check_body hint conf
                exception_prefix_default
                s make_code_raiser_hint_object_check_spec
                (wf_not_recording s Hwf)
                (wf_code_tester_cache s Hwf) (wf_code_raiser_cache s Hwf))
    as Hrun.
  unfold make_func_raiser, callable_cached. rewrite Hmiss.
  destruct (_make_func_checker hint conf make_code_raiser_hint_object_check
              exception_prefix_default s) as [s1 [func|e]];
    exists s1; simpl in *; auto.
Qed.

Lemma make_func_tester_wf hint conf s :
  wf_state s -> wf_state (fst (make_func_tester hint conf s)).
Proof.
  intros Hwf.
  destruct (make_func_tester_cache s !! (hint, conf)) as [func|] eqn:Hlook.
  - now rewrite (make_func_tester_hit _ _ _ _ Hlook).
  - destruct (make_func_tester_miss hint conf s Hwf Hlook)
      as (s1 & Hrun & ->).
    destruct (checker_run_wf _ _ _ _ _ _ _ Hwf Hrun)
      as (Hwf1 & Ht & Hr & Hsound).
    destruct (snd (make_func_tester hint conf s)) as [func|e]; [|exact Hwf1].
    destruct Hwf1. split; simpl; try assumption.
    apply func_cache_sound_insert; auto.
Qed.

Lemma make_func_raiser_wf hint conf s :
  wf_state s -> wf_state (fst (make_func_raiser hint conf s)).
Proof.
  intros Hwf.
  destruct (make_func_raiser_cache s !! (hint, conf)) as [func|] eqn:Hlook.
  - now rewrite (make_func_raiser_hit _ _ _ _ Hlook).
  - destruct (make_func_raiser_miss hint conf s Hwf Hlook)
      as (s1 & Hrun & ->).
    destruct (checker_run_wf _ _ _ _ _ _ _ Hwf Hrun)
      as (Hwf1 & Ht & Hr & Hsound).
    destruct (snd (make_func_raiser hint conf s)) as [func|e]; [|exact Hwf1].
    destruct Hwf1. split; simpl; try assumption.
    apply func_cache_sound_insert; auto.
Qed.

Lemma call_checker_state func obj s :
  warnings_recorded s = None ->
  exists ws drawn,
    fst (call_checker func obj s)
    = mkState (_func_checker_name_counter s) (make_func_tester_cache s)
        (make_func_raiser_cache s) (make_code_tester_check_cache s)
        (make_code_raiser_hint_object_check_cache s) None
        (trace s ++ map EvIssued ws) (random_source s) drawn.
Proof.
  intros Hrec. destruct s as [n t r ct cr rec tr src d]; simpl in *; subst rec.
  destruct func as [|f]; simpl.
  - exists [], d. now rewrite app_nil_r.
  - unfold bind. destruct (scope_has ARG_NAME_GETRANDBITS (func_locals f));
      simpl; unfold set_random_drawn; simpl; rewrite call_issued; simpl; eauto.
Qed.

Lemma call_checker_wf func obj s :
  wf_state s -> wf_state (fst (call_checker func obj s)).
Proof.
  intros Hwf.
  destruct (call_checker_state func obj s (wf_not_recording s Hwf))
    as (ws & drawn & ->).
  destruct Hwf as [? ? ? ? ? Hnames].
  split; simpl; try assumption; try reflexivity.
  rewrite made_names_app, made_names_issued, app_nil_r. exact Hnames.
Qed.

Lemma run_request_wf (req : Request) s :
  wf_state s -> wf_state (run_request req s).
Proof.
  destruct req; simpl;
    auto using make_func_tester_wf, make_func_raiser_wf, call_checker_wf.
Qed.

Lemma reachable_wf s : reachable s -> wf_state s.
Proof.
  induction 1; [apply wf_initial_state | now apply run_request_wf].
Qed.

Lemma run_requests_reachable (reqs : list Request) s :
  reachable s -> reachable (run_requests reqs s).
Proof.
  revert s. induction reqs as [|req reqs IH]; intros s Hs; simpl; [exact Hs|].
  apply IH. now constructor.
Qed.

(** *** Shared consequences of a run *)

Ltac unify_run :=
  repeat match goal with
  | H1 : ?x = _, H2 : ?x = _ |- _ => rewrite H1 in H2; simplify_eq
  | H1 : ?x = (_, _), H2 : snd ?x = _ |- _ => rewrite H1 in H2; simpl in H2
  | H1 : ?x = (_, _), H2 : fst ?x = _ |- _ => rewrite H1 in H2; simpl in H2
  | H : Return _ = Return _ |- _ => injection H as H
  | H : Raise _ = Raise _ |- _ => injection H as H
  | H : (_, _) = (_, _) |- _ => injection H as H
  | H : context [die_unless_conf (IsConf _)] |- _ => progress simpl in H
  | _ => progress simplify_eq
  end.

Lemma make_code_tester_check_body_result hint conf ws code scope refs :
  make_check_expr hint conf None = (ws, Return (code, scope, refs)) ->
  make_code_tester_check_body hint conf
  = (ws, Return (CODE_TESTER_CHECK_PREFIX +:+ code, scope, refs)).
Proof.
  intros Hexpr. unfold make_code_tester_check_body, obind, oret.
  rewrite Hexpr. now rewrite app_nil_r.
Qed.

Lemma make_code_raiser_hint_object_check_body_result
    hint conf ws code scope refs :
  make_check_expr hint conf None = (ws, Return (code, scope, refs)) ->
  exists code' scope',
    make_code_raiser_hint_object_check_body hint conf
    = (ws, Return (code', scope', refs)).
Proof.
  intros Hexpr. unfold make_code_raiser_hint_object_check_body, obind, oret.
  rewrite Hexpr.
  destruct (_make_code_raiser_violation conf _ None) as [handle scope'].
  rewrite app_nil_r. eauto.
Qed.

(** A run on a valid configuration and a hint that sanifies to an ignorable
    hint leaves by the [return] statement, before any code is generated. *)
Lemma checker_run_ignorable body hint conf hint' prefix s s1 res :
  snd (sanify_hint_root_statement hint conf EXCEPTION_PLACEHOLDER)
    = Return hint' ->
  is_hint_ignorable hint' = true ->
  checker_run body hint (IsConf conf) prefix s s1 res ->
  res = Return Ignorable /\
  code_check_calls (trace s1) = code_check_calls (trace s).
Proof.
  intros Hsan Hign Hrun. destruct Hrun; unify_run.
  split; [reflexivity|]. now simpl_events.
Qed.

Lemma checker_sound_ignorable body hint conf hint' func :
  snd (sanify_hint_root_statement hint conf EXCEPTION_PLACEHOLDER)
    = Return hint' ->
  is_hint_ignorable hint' = true ->
  checker_sound body hint (IsConf conf) func ->
  func = Ignorable.
Proof.
  intros Hsan Hign (conf' & hint'' & Hconf & Hsan' & Hfunc).
  unify_run. now rewrite Hign in Hfunc.
Qed.

Lemma make_func_tester_on_ignorable hint conf hint' s :
  wf_state s ->
  snd (sanify_hint_root_statement hint conf EXCEPTION_PLACEHOLDER)
    = Return hint' ->
  is_hint_ignorable hint' = true ->
  snd (make_func_tester hint (IsConf conf) s) = Return Ignorable /\
  code_check_calls (trace (fst (make_func_tester hint (IsConf conf) s)))
  = code_check_calls (trace s).
Proof.
  intros Hwf Hsan Hign.
  destruct (make_func_tester_cache s !! (hint, IsConf conf)) as [func|]
    eqn:Hlook.
  - rewrite (make_func_tester_hit _ _ _ _ Hlook); simpl. split; [|reflexivity].
    f_equal. eapply checker_sound_ignorable; eauto.
    eapply wf_tester_cache; eauto.
  - destruct (make_func_tester_miss _ _ _ Hwf Hlook) as (s1 & Hrun & ->).
    destruct (checker_run_ignorable _ _ _ _ _ _ _ _ Hsan Hign Hrun)
      as [-> Hcalls].
    auto.
Qed.

Lemma make_func_raiser_on_ignorable hint conf hint' s :
  wf_state s ->
  snd (sanify_hint_root_statement hint conf EXCEPTION_PLACEHOLDER)
    = Return hint' ->
  is_hint_ignorable hint' = true ->
  snd (make_func_raiser hint (IsConf conf) s) = Return Ignorable /\
  code_check_calls (trace (fst (make_func_raiser hint (IsConf conf) s)))
  = code_check_calls (trace s).
Proof.
  intros Hwf Hsan Hign.
  destruct (make_func_raiser_cache s !! (hint, IsConf conf)) as [func|]
    eqn:Hlook.
  - rewrite (make_func_raiser_hit _ _ _ _ Hlook); simpl. split; [|reflexivity].
    f_equal. eapply checker_sound_ignorable; eauto.
    eapply wf_raiser_cache; eauto.
  - destruct (make_func_raiser_miss _ _ _ Hwf Hlook) as (s1 & Hrun & ->).
    destruct (checker_run_ignorable _ _ _ _ _ _ _ _ Hsan Hign Hrun)
      as [-> Hcalls].
    auto.
Qed.

Lemma call_checker_ignorable obj s :
  call_checker Ignorable obj s = (s, Return (RetBool true)).
Proof. reflexivity. Qed.

(** *** Claims on ignorable hints *)

(** C1.  For every hint that sanifies to an ignorable hint and every valid
    configuration, [make_func_tester] returns a function that returns [True]
    for every object and leaves the process as it found it, and the request
    never invokes the code factory [make_code_check]. *)
Theorem make_func_tester_ignorable hint conf hint' s :
  wf_state s ->
  snd (sanify_hint_root_statement hint conf EXCEPTION_PLACEHOLDER)
    = Return hint' ->
  is_hint_ignorable hint' = true ->
  exists func,
    snd (make_func_tester hint (IsConf conf) s) = Return func /\
    (forall obj s0, call_checker func obj s0 = (s0, Return (RetBool true))) /\
    code_check_calls (trace (fst (make_func_tester hint (IsConf conf) s)))
    = code_check_calls (trace s).
Proof.
  intros Hwf Hsan Hign. exists Ignorable.
  destruct (make_func_tester_on_ignorable hint conf hint' s Hwf Hsan Hign)
    as [Hres Hcalls].
  split; [exact Hres|]. split; [|exact Hcalls].
  intros obj s0. apply call_checker_ignorable.
Qed.

(** C9.  For every hint that sanifies to an ignorable hint, whatever the
    warn-or-raise switches of the configuration, [make_func_raiser] returns
    the same singleton as [make_func_tester]: a function that returns [True],
    not [None], for every object, raises nothing and emits nothing. *)
Theorem make_func_raiser_ignorable hint conf hint' s s' :
  wf_state s -> wf_state s' ->
  snd (sanify_hint_root_statement hint conf EXCEPTION_PLACEHOLDER)
    = Return hint' ->
  is_hint_ignorable hint' = true ->
  snd (make_func_raiser hint (IsConf conf) s) = Return Ignorable /\
  snd (make_func_tester hint (IsConf conf) s') = Return Ignorable /\
  (forall obj s0,
     call_checker Ignorable obj s0
     = (s0, Return (RetBool (_func_checker_ignorable obj)))) /\
  (forall obj, RetBool (_func_checker_ignorable obj) = RetBool true) /\
  (forall obj, RetBool (_func_checker_ignorable obj) <> RetNone).
Proof.
  intros Hwf Hwf' Hsan Hign.
  split; [apply (make_func_raiser_on_ignorable hint conf hint' s Hwf Hsan Hign)|].
  split; [apply (make_func_tester_on_ignorable hint conf hint' s' Hwf' Hsan Hign)|].
  split; [reflexivity|]. split; [reflexivity|discriminate].
Qed.

(** *** Memoization *)

Lemma make_func_raiser_again hint conf s s1 func :
  make_func_raiser hint conf s = (s1, Return func) ->
  make_func_raiser hint conf s1 = (s1, Return func).
Proof.
  unfold make_func_raiser, callable_cached.
  destruct (make_func_raiser_cache s !! (hint, conf)) as [cached|] eqn:Hlook.
  - intros [= <- <-]. now rewrite Hlook.
  - destruct (_make_func_checker hint conf make_code_raiser_hint_object_check
                exception_prefix_default s) as [s' [value|e]];
      intros [= <- <-]; simpl.
    now rewrite lookup_insert_eq.
Qed.

Lemma make_func_tester_again hint conf s s1 func :
  make_func_tester hint conf s = (s1, Return func) ->
  make_func_tester hint conf s1 = (s1, Return func).
Proof.
  unfold make_func_tester, callable_cached.
  destruct (make_func_tester_cache s !! (hint, conf)) as [cached|] eqn:Hlook.
  - intros [= <- <-]. now rewrite Hlook.
  - destruct (_make_func_checker hint conf make_code_tester_check
                exception_prefix_default s) as [s' [value|e]];
      intros [= <- <-]; simpl.
    now rewrite lookup_insert_eq.
Qed.

(** C4.  A call of [make_func_tester] that returns a function is answered
    from the memo when it is repeated: the second call returns the same
    function object and leaves the process, its name counter and trace
    included, as the first call left it, so nothing is compiled again. *)
Theorem make_func_tester_memoized hint conf s s1 func :
  make_func_tester hint conf s = (s1, Return func) ->
  make_func_tester hint conf s1 = (s1, Return func) /\
  forall s2 func', make_func_tester hint conf s1 = (s2, Return func') ->
                   func' = func /\ s2 = s1.
Proof.
  intros Hfirst. pose proof (make_func_tester_again _ _ _ _ _ Hfirst) as Hagain.
  split; [exact Hagain|].
  intros s2 func' Hsecond. rewrite Hagain in Hsecond.
  now injection Hsecond as <- <-.
Qed.

(** *** Forward references *)

Lemma checker_run_forward_ref body hint conf hint' code scope ref refs prefix
    s s1 res :
  snd (sanify_hint_root_statement hint conf EXCEPTION_PLACEHOLDER)
    = Return hint' ->
  is_hint_ignorable hint' = false ->
  snd (body hint' conf) = Return (code, scope, ref :: refs) ->
  checker_run body hint (IsConf conf) prefix s s1 res ->
  res = Raise (reraised prefix (forward_ref_exception hint' ref)) /\
  _func_checker_name_counter s1 = _func_checker_name_counter s /\
  made_names (trace s1) = made_names (trace s).
Proof.
  intros Hsan Hign Hbody Hrun. destruct Hrun; unify_run.
  split; [reflexivity|]. split; [reflexivity|]. now simpl_events.
Qed.

Lemma checker_sound_forward_ref body hint conf hint' code scope ref refs func :
  snd (sanify_hint_root_statement hint conf EXCEPTION_PLACEHOLDER)
    = Return hint' ->
  is_hint_ignorable hint' = false ->
  snd (body hint' conf) = Return (code, scope, ref :: refs) ->
  ~ checker_sound body hint (IsConf conf) func.
Proof.
  intros Hsan Hign Hbody (conf' & hint'' & Hconf & Hsan' & Hfunc).
  unify_run. rewrite Hign in Hfunc. destruct Hfunc as (code' & scope' & Heq).
  unify_run.
Qed.

(** C2.  When the check compiled for a hint comes with a non-empty list of
    relative forward references, both factories raise the forward reference
    exception ([PortabilityError] in the spec): no function is returned, none
    is made, and no name is drawn from the counter. *)
Theorem forward_reference_rejected
    hint conf hint' ws code scope ref refs s :
  wf_state s ->
  snd (sanify_hint_root_statement hint conf EXCEPTION_PLACEHOLDER)
    = Return hint' ->
  is_hint_ignorable hint' = false ->
  make_check_expr hint' conf None = (ws, Return (code, scope, ref :: refs)) ->
  (exists e,
     snd (make_func_tester hint (IsConf conf) s) = Raise e /\
     exception_cls e = BeartypeDecorHintForwardRefException /\
     made_names (trace (fst (make_func_tester hint (IsConf conf) s)))
     = made_names (trace s) /\
     _func_checker_name_counter (fst (make_func_tester hint (IsConf conf) s))
     = _func_checker_name_counter s) /\
  (exists e,
     snd (make_func_raiser hint (IsConf conf) s) = Raise e /\
     exception_cls e = BeartypeDecorHintForwardRefException /\
     made_names (trace (fst (make_func_raiser hint (IsConf conf) s)))
     = made_names (trace s) /\
     _func_checker_name_counter (fst (make_func_raiser hint (IsConf conf) s))
     = _func_checker_name_counter s).
Proof.
  intros Hwf Hsan Hign Hexpr. split.
  - pose proof (make_code_tester_check_body_result _ _ _ _ _ _ Hexpr) as Hbody.
    apply (f_equal snd) in Hbody; simpl in Hbody.
    destruct (make_func_tester_cache s !! (hint, IsConf conf)) as [func|]
      eqn:Hlook.
    + exfalso.
      eapply checker_sound_forward_ref; [exact Hsan|exact Hign|exact Hbody|].
      eapply wf_tester_cache; eauto.
    + destruct (make_func_tester_miss _ _ _ Hwf Hlook) as (s1 & Hrun & ->).
      destruct (checker_run_forward_ref _ _ _ _ _ _ _ _ _ _ _ _ Hsan Hign
                  Hbody Hrun) as (-> & Hcounter & Hnames).
      eexists. split; [reflexivity|]. auto.
  - destruct (make_code_raiser_hint_object_check_body_result _ _ _ _ _ _ Hexpr)
      as (code' & scope' & Hbody).
    apply (f_equal snd) in Hbody; simpl in Hbody.
    destruct (make_func_raiser_cache s !! (hint, IsConf conf)) as [func|]
      eqn:Hlook.
    + exfalso.
      eapply checker_sound_forward_ref; [exact Hsan|exact Hign|exact Hbody|].
      eapply wf_raiser_cache; eauto.
    + destruct (make_func_raiser_miss _ _ _ Hwf Hlook) as (s1 & Hrun & ->).
      destruct (checker_run_forward_ref _ _ _ _ _ _ _ _ _ _ _ _ Hsan Hign
                  Hbody Hrun) as (-> & Hcounter & Hnames).
      eexists. split; [reflexivity|]. auto.
Qed.

(** *** Exceptions *)

Lemma reraised_cls prefix e :
  exception_cls (reraised prefix e) = exception_cls e.
Proof. reflexivity. Qed.

Lemma checker_run_raised body hint conf prefix s s1 res e :
  checker_run body hint conf prefix s s1 res ->
  raised_during body hint conf (_func_checker_name_counter s) e ->
  res = Raise (reraised prefix e).
Proof.
  intros Hrun Hraised. destruct Hrun; destruct Hraised; unify_run; reflexivity.
Qed.

Lemma checker_run_raises body hint conf prefix s s1 e' :
  checker_run body hint conf prefix s s1 (Raise e') ->
  exists e,
    raised_during body hint conf (_func_checker_name_counter s) e /\
    e' = reraised prefix e.
Proof.
  intros Hrun. inversion Hrun; subst; eexists; (split; [|reflexivity]).
  - eapply raised_by_die_unless_conf; eauto.
  - eapply raised_by_sanify; eauto.
    match goal with Hs : sanify_hint_root_statement _ _ _ = _ |- _ =>
      now rewrite Hs end.
  - eapply raised_by_make_code_check; eauto.
    match goal with Hs : sanify_hint_root_statement _ _ _ = _ |- _ =>
      now rewrite Hs end.
  - eapply raised_by_forward_ref; eauto.
    match goal with Hs : sanify_hint_root_statement _ _ _ = _ |- _ =>
      now rewrite Hs end.
  - eapply raised_by_make_func_signature; eauto.
    + match goal with Hs : sanify_hint_root_statement _ _ _ = _ |- _ =>
        now rewrite Hs end.
    + match goal with Hs : make_func_signature _ _ _ _ = _ |- _ =>
        now rewrite Hs end.
  - eapply raised_by_make_func; eauto.
    + match goal with Hs : sanify_hint_root_statement _ _ _ = _ |- _ =>
        now rewrite Hs end.
    + match goal with Hs : make_func_signature _ _ _ _ = _ |- _ =>
        now rewrite Hs end.
    + match goal with Hs : make_func _ _ _ _ _ = _ |- _ =>
        now rewrite Hs end.
Qed.

(** C6.  On a request that the memo of its factory does not answer, every
    exception raised while the configuration is validated, the hint sanified,
    the code generated, the forward references checked or the function
    synthesized reaches the caller of the factory as an exception of the same
    class whose message is the original with the placeholder replaced by the
    description of the call site; and every exception the factory raises
    arises so.  Each factory is answerable to its own memo only: what the
    memo of the other factory holds does not matter. *)
Theorem exceptions_propagate hint conf s :
  wf_state s ->
  (make_func_tester_cache s !! (hint, conf) = None ->
   (forall e,
      raised_during make_code_tester_check_body hint conf
        (_func_checker_name_counter s) e ->
      snd (make_func_tester hint conf s)
      = Raise (mkException (exception_cls e)
                 (str_replace EXCEPTION_PLACEHOLDER exception_prefix_default
                    (exception_message e)))) /\
   (forall e',
      snd (make_func_tester hint conf s) = Raise e' ->
      exists e,
        raised_during make_code_tester_check_body hint conf
          (_func_checker_name_counter s) e /\
        exception_cls e' = exception_cls e /\
        exception_message e'
        = str_replace EXCEPTION_PLACEHOLDER exception_prefix_default
            (exception_message e))) /\
  (make_func_raiser_cache s !! (hint, conf) = None ->
   (forall e,
      raised_during make_code_raiser_hint_object_check_body hint conf
        (_func_checker_name_counter s) e ->
      snd (make_func_raiser hint conf s)
      = Raise (mkException (exception_cls e)
                 (str_replace EXCEPTION_PLACEHOLDER exception_prefix_default
                    (exception_message e)))) /\
   (forall e',
      snd (make_func_raiser hint conf s) = Raise e' ->
      exists e,
        raised_during make_code_raiser_hint_object_check_body hint conf
          (_func_checker_name_counter s) e /\
        exception_cls e' = exception_cls e /\
        exception_message e'
        = str_replace EXCEPTION_PLACEHOLDER exception_prefix_default
            (exception_message e))).
Proof.
  intros Hwf. split.
  - intros Htester.
    destruct (make_func_tester_miss _ _ _ Hwf Htester) as (s1 & Hrun1 & _).
    split.
    + intros e Hraised.
      apply (checker_run_raised _ _ _ _ _ _ _ _ Hrun1 Hraised).
    + intros e' Hres. rewrite Hres in Hrun1.
      destruct (checker_run_raises _ _ _ _ _ _ _ Hrun1) as (e & Hraised & ->).
      exists e. auto.
  - intros Hraiser.
    destruct (make_func_raiser_miss _ _ _ Hwf Hraiser) as (s2 & Hrun2 & _).
    split.
    + intros e Hraised.
      apply (checker_run_raised _ _ _ _ _ _ _ _ Hrun2 Hraised).
    + intros e' Hres. rewrite Hres in Hrun2.
      destruct (checker_run_raises _ _ _ _ _ _ _ Hrun2) as (e & Hraised & ->).
      exists e. auto.
Qed.

(** *** Warnings *)










(** *** Names *)

Lemma checker_run_names body hint conf prefix s s1 res :
  checker_run body hint conf prefix s s1 res ->
  made_names (trace s1) = made_names (trace s) \/
  (made_names (trace s1)
   = made_names (trace s)
       ++ [func_checker_name (_func_checker_name_counter s)] /\
   _func_checker_name_counter s1 = S (_func_checker_name_counter s)).
Proof.
  intros Hrun. destruct Hrun; try (left; now simpl_events).
  right. split; [now simpl_events|reflexivity].
Qed.

Lemma run_request_names (req : Request) s :
  wf_state s ->
  made_names (trace (run_request req s)) = made_names (trace s) \/
  (made_names (trace (run_request req s))
   = made_names (trace s)
       ++ [func_checker_name (_func_checker_name_counter s)] /\
   _func_checker_name_counter (run_request req s)
   = S (_func_checker_name_counter s)).
Proof.
  intros Hwf. destruct req as [hint conf|hint conf|func obj]; simpl.
  - destruct (make_func_tester_cache s !! (hint, conf)) as [func|] eqn:Hlook.
    + rewrite (make_func_tester_hit _ _ _ _ Hlook). now left.
    + destruct (make_func_tester_miss _ _ _ Hwf Hlook) as (s1 & Hrun & ->).
      apply checker_run_names in Hrun.
      now destruct (snd (make_func_tester hint conf s)).
  - destruct (make_func_raiser_cache s !! (hint, conf)) as [func|] eqn:Hlook.
    + rewrite (make_func_raiser_hit _ _ _ _ Hlook). now left.
    + destruct (make_func_raiser_miss _ _ _ Hwf Hlook) as (s1 & Hrun & ->).
      apply checker_run_names in Hrun.
      now destruct (snd (make_func_raiser hint conf s)).
  - destruct (call_checker_state func obj s (wf_not_recording s Hwf))
      as (ws & drawn & ->).
    left. now simpl_events.
Qed.

(** In every state a process can reach, the names recorded for the functions
    made so far are pairwise distinct and each is the fixed prefix followed by
    a value the counter has already yielded. *)
Lemma made_names_unique s :
  reachable s ->
  NoDup (made_names (trace s)) /\
  Forall (fun name =>
            exists k, k < _func_checker_name_counter s /\
                      name = FUNC_CHECKER_NAME_PREFIX +:+ pretty k)
    (made_names (trace s)).
Proof. intros Hreach. apply (wf_names s (reachable_wf s Hreach)). Qed.

Lemma checker_run_counter body hint conf prefix s s1 res :
  checker_run body hint conf prefix s s1 res ->
  _func_checker_name_counter s <= _func_checker_name_counter s1.
Proof. intros Hrun. destruct Hrun; simpl; lia. Qed.

Lemma checker_run_made_under body hint conf prefix s s1 func :
  checker_run body hint conf prefix s s1 (Return (Generated func)) ->
  made_under (func_checker_name (_func_checker_name_counter s)) func /\
  _func_checker_name_counter s1 = S (_func_checker_name_counter s).
Proof.
  intros Hrun. inversion Hrun; subst. split; [|reflexivity].
  exists conf', scope, code, sig.
  repeat match goal with
         | Hs : make_func_signature _ _ _ _ = _ |- _ => rewrite Hs; clear Hs
         | Hs : make_func _ _ _ _ _ = _ |- _ => rewrite Hs; clear Hs
         end.
  split; reflexivity.
Qed.

Lemma synthesizes_made_under (req : Request) s func :
  wf_state s ->
  synthesizes req s func ->
  made_under (func_checker_name (_func_checker_name_counter s)) func /\
  _func_checker_name_counter (run_request req s)
  = S (_func_checker_name_counter s).
Proof.
  intros Hwf. destruct req as [hint conf|hint conf|f obj]; simpl;
    [intros [Hmiss Hres]|intros [Hmiss Hres]|contradiction].
  - destruct (make_func_tester_miss _ _ _ Hwf Hmiss) as (s1 & Hrun & ->).
    rewrite Hres in *.
    now apply checker_run_made_under in Hrun.
  - destruct (make_func_raiser_miss _ _ _ Hwf Hmiss) as (s1 & Hrun & ->).
    rewrite Hres in *.
    now apply checker_run_made_under in Hrun.
Qed.

Lemma run_request_counter (req : Request) s :
  wf_state s ->
  _func_checker_name_counter s
  <= _func_checker_name_counter (run_request req s).
Proof.
  intros Hwf. destruct req as [hint conf|hint conf|func obj]; simpl.
  - destruct (make_func_tester_cache s !! (hint, conf)) as [func|] eqn:Hlook.
    + now rewrite (make_func_tester_hit _ _ _ _ Hlook).
    + destruct (make_func_tester_miss _ _ _ Hwf Hlook) as (s1 & Hrun & ->).
      apply checker_run_counter in Hrun.
      now destruct (snd (make_func_tester hint conf s)).
  - destruct (make_func_raiser_cache s !! (hint, conf)) as [func|] eqn:Hlook.
    + now rewrite (make_func_raiser_hit _ _ _ _ Hlook).
    + destruct (make_func_raiser_miss _ _ _ Hwf Hlook) as (s1 & Hrun & ->).
      apply checker_run_counter in Hrun.
      now destruct (snd (make_func_raiser hint conf s)).
  - destruct (call_checker_state func obj s (wf_not_recording s Hwf))
      as (ws & drawn & ->).
    reflexivity.
Qed.

Lemma run_requests_counter (reqs : list Request) s :
  wf_state s ->
  _func_checker_name_counter s
  <= _func_checker_name_counter (run_requests reqs s).
Proof.
  revert s. induction reqs as [|req reqs IH]; intros s Hwf; simpl;
    [reflexivity|].
  etrans; [apply (run_request_counter req s Hwf)|].
  apply IH. now apply run_request_wf.
Qed.

(** C8.  In every state a process can reach, a synthesis calls
    [make_func_signature] and [make_func] with the fixed prefix followed by
    the current value of the counter, and advances the counter by one; the
    counter never decreases.  So of two syntheses, whatever requests lie
    between them, the later one is made under a later value of the counter and
    under a different name; and when [make_func] names a function as it is
    told, the two functions returned bear these two different names. *)
Theorem func_checker_names_unique
    s (req1 req2 : Request) (reqs : list Request) func1 func2 :
  reachable s ->
  synthesizes req1 s func1 ->
  synthesizes req2 (run_requests reqs (run_request req1 s)) func2 ->
  exists n1 n2,
    n1 = _func_checker_name_counter s /\
    _func_checker_name_counter (run_request req1 s) = S n1 /\
    n2 = _func_checker_name_counter (run_requests reqs (run_request req1 s)) /\
    n1 < n2 /\
    made_under (FUNC_CHECKER_NAME_PREFIX +:+ pretty n1) func1 /\
    made_under (FUNC_CHECKER_NAME_PREFIX +:+ pretty n2) func2 /\
    FUNC_CHECKER_NAME_PREFIX +:+ pretty n1
    <> FUNC_CHECKER_NAME_PREFIX +:+ pretty n2 /\
    ((forall name code scope label debug func,
        snd (make_func name code scope label debug) = Return func ->
        func_name func = name) ->
     func_name func1 = FUNC_CHECKER_NAME_PREFIX +:+ pretty n1 /\
     func_name func2 = FUNC_CHECKER_NAME_PREFIX +:+ pretty n2 /\
     func_name func1 <> func_name func2).
Proof.
  intros Hreach Hfirst Hsecond.
  pose proof (reachable_wf s Hreach) as Hwf.
  pose proof (run_request_wf req1 s Hwf) as Hwf1.
  pose proof (reachable_wf _ (run_requests_reachable reqs _
                                (reachable_request req1 s Hreach))) as Hwf2.
  destruct (synthesizes_made_under _ _ _ Hwf Hfirst) as [Hmade1 Hnext].
  destruct (synthesizes_made_under _ _ _ Hwf2 Hsecond) as [Hmade2 _].
  pose proof (run_requests_counter reqs _ Hwf1) as Hmono.
  set (n1 := _func_checker_name_counter s) in *.
  set (n2 := _func_checker_name_counter
               (run_requests reqs (run_request req1 s))) in *.
  assert (Hlt : n1 < n2) by lia.
  assert (Hne : func_checker_name n1 <> func_checker_name n2).
  { intros Heq. apply func_checker_name_inj in Heq. lia. }
  exists n1, n2. repeat (split; [assumption || reflexivity|]).
  intros Hnamed.
  assert (Hname : forall name func,
            made_under name func -> func_name func = name).
  { intros name func (conf & scope & code & sig & _ & Hfunc).
    now apply Hnamed in Hfunc. }
  rewrite (Hname _ _ Hmade1), (Hname _ _ Hmade2). auto.
Qed.

(** *** Repeated checks *)



(** *** The violation policy in the raiser code factories *)

Lemma _make_code_raiser_violation_code conf (func_scope : LexicalScope Hint)
    is_param :
  fst (_make_code_raiser_violation conf func_scope is_param)
  = if is_violation_warn conf is_param
    then CODE_WARN_VIOLATION else CODE_RAISE_VIOLATION.
Proof.
  unfold _make_code_raiser_violation.
  change (match is_param with
          | Some true => _is_violation_param_warn conf
          | Some false => _is_violation_return_warn conf
          | None => _is_violation_door_warn conf
          end) with (is_violation_warn conf is_param).
  now destruct (is_violation_warn conf is_param).
Qed.

(** The raiser of a parameter or return ends in the snippet selected by the
    switch of its call site. *)
Lemma make_code_raiser_func_pith_check_body_policy
    hint conf cls_stack is_param ws code scope refs :
  make_check_expr hint conf cls_stack = (ws, Return (code, scope, refs)) ->
  exists code_get_violation scope',
    make_code_raiser_func_pith_check_body hint conf cls_stack is_param
    = (ws,
       Return
         (CODE_RAISER_FUNC_PITH_CHECK_PREFIX +:+ code +:+ code_get_violation
            +:+ (if is_violation_warn conf is_param
                 then CODE_WARN_VIOLATION else CODE_RAISE_VIOLATION),
          scope', refs)).
Proof.
  intros Hexpr. unfold make_code_raiser_func_pith_check_body, obind, oret.
  rewrite Hexpr.
  match goal with
  | |- context [_make_code_raiser_violation conf ?sc is_param] =>
      pose proof (_make_code_raiser_violation_code conf sc is_param) as Hcode;
      destruct (_make_code_raiser_violation conf sc is_param)
        as [handle scope']
  end.
  simpl in Hcode. subst handle. rewrite app_nil_r. eauto.
Qed.

(** The raiser of the DOOR type-checkers ends in the snippet selected by the
    DOOR switch. *)
Lemma make_code_raiser_hint_object_check_body_policy
    hint conf ws code scope refs :
  make_check_expr hint conf None = (ws, Return (code, scope, refs)) ->
  exists code_get_violation scope',
    make_code_raiser_hint_object_check_body hint conf
    = (ws,
       Return
         (CODE_RAISER_HINT_OBJECT_CHECK_PREFIX +:+ code +:+ code_get_violation
            +:+ (if _is_violation_door_warn conf
                 then CODE_WARN_VIOLATION else CODE_RAISE_VIOLATION),
          scope', refs)).
Proof.
  intros Hexpr. unfold make_code_raiser_hint_object_check_body, obind, oret.
  rewrite Hexpr.
  match goal with
  | |- context [_make_code_raiser_violation conf ?sc None] =>
      pose proof (_make_code_raiser_violation_code conf sc None) as Hcode;
      destruct (_make_code_raiser_violation conf sc None) as [handle scope']
  end.
  simpl in Hcode. subst handle. rewrite app_nil_r. eauto.
Qed.

(** The raiser of a [NoReturn] return ends in the snippet selected by the
    return switch. *)
Lemma make_code_raiser_func_pep484_noreturn_check_body_policy conf :
  exists code_get_violation scope',
    make_code_raiser_func_pep484_noreturn_check_body (Hint := Hint) conf
    = ([],
       Return
         (code_get_violation
            +:+ (if _is_violation_return_warn conf
                 then CODE_WARN_VIOLATION else CODE_RAISE_VIOLATION),
          scope', [])).
Proof.
  unfold make_code_raiser_func_pep484_noreturn_check_body, oret.
  match goal with
  | |- context [_make_code_raiser_violation conf ?sc (Some false)] =>
      pose proof (_make_code_raiser_violation_code conf sc (Some false))
        as Hcode;
      destruct (_make_code_raiser_violation conf sc (Some false))
        as [handle scope']
  end.
  simpl in Hcode. subst handle. eauto.
Qed.

(** *** Further properties of the code factories *)

Ltac distinct_names H :=
  repeat (apply NoDup_cons in H as [? H]);
  repeat match goal with
         | Hn : _ ∉ _ :: _ |- _ => apply not_elem_of_cons in Hn as [? Hn]
         end.

Lemma _make_code_raiser_violation_lookup
    conf (func_scope : LexicalScope Hint) is_param :
  ARG_NAME_CONF <> ARG_NAME_WARN ->
  snd (_make_code_raiser_violation conf func_scope is_param) !! ARG_NAME_CONF
    = Some (ObjConf conf) /\
  snd (_make_code_raiser_violation conf func_scope is_param) !! ARG_NAME_WARN
    = (if is_violation_warn conf is_param
       then Some warn else func_scope !! ARG_NAME_WARN) /\
  forall name,
    name <> ARG_NAME_CONF -> name <> ARG_NAME_WARN ->
    snd (_make_code_raiser_violation conf func_scope is_param) !! name
    = func_scope !! name.
Proof.
  intros Hne. unfold _make_code_raiser_violation.
  change (match is_param with
          | Some true => _is_violation_param_warn conf
          | Some false => _is_violation_return_warn conf
          | None => _is_violation_door_warn conf
          end) with (is_violation_warn conf is_param).
  destruct (is_violation_warn conf is_param); simpl.
  - split; [|split].
    + rewrite lookup_insert_ne by congruence. apply lookup_insert_eq.
    + apply lookup_insert_eq.
    + intros name Hconf Hwarn. now rewrite !lookup_insert_ne by congruence.
  - split; [|split].
    + apply lookup_insert_eq.
    + now rewrite lookup_insert_ne by congruence.
    + intros name Hconf Hwarn. now rewrite lookup_insert_ne by congruence.
Qed.

(** X1.  [_make_code_raiser_violation] always binds the configuration, binds
    [warnings.warn] exactly when the switch of the call site is set, and
    leaves every other name of the scope bound as it was. *)
Theorem _make_code_raiser_violation_scope
    conf (func_scope : LexicalScope Hint) is_param :
  ARG_NAME_CONF <> ARG_NAME_WARN ->
  snd (_make_code_raiser_violation conf func_scope is_param) !! ARG_NAME_CONF
    = Some (ObjConf conf) /\
  snd (_make_code_raiser_violation conf func_scope is_param) !! ARG_NAME_WARN
    = (if is_violation_warn conf is_param
       then Some warn else func_scope !! ARG_NAME_WARN) /\
  forall name,
    name <> ARG_NAME_CONF -> name <> ARG_NAME_WARN ->
    snd (_make_code_raiser_violation conf func_scope is_param) !! name
    = func_scope !! name.
Proof. apply _make_code_raiser_violation_lookup. Qed.

(** X2.  When the hint compiles, the code of a DOOR raiser comes with a scope
    that binds the violation getter of hints and objects, the hint, and the
    configuration, binds [warnings.warn] exactly when the DOOR switch is set,
    keeps every other name bound by the compiler, and passes the warnings and
    forward references of the compiler through. *)
Theorem make_code_raiser_hint_object_check_body_scope
    hint conf ws expr (scope : LexicalScope Hint) refs :
  NoDup [ARG_NAME_GET_VIOLATION; ARG_NAME_HINT; ARG_NAME_CONF; ARG_NAME_WARN] ->
  make_check_expr hint conf None = (ws, Return (expr, scope, refs)) ->
  exists code scope',
    make_code_raiser_hint_object_check_body hint conf
    = (ws, Return (code, scope', refs)) /\
    scope' !! ARG_NAME_GET_VIOLATION = Some get_hint_object_violation /\
    scope' !! ARG_NAME_HINT = Some (ObjHint hint) /\
    scope' !! ARG_NAME_CONF = Some (ObjConf conf) /\
    scope' !! ARG_NAME_WARN
      = (if _is_violation_door_warn conf
         then Some warn else scope !! ARG_NAME_WARN) /\
    forall name,
      name ∉ [ARG_NAME_GET_VIOLATION; ARG_NAME_HINT; ARG_NAME_CONF;
               ARG_NAME_WARN] ->
      scope' !! name = scope !! name.
Proof.
  intros Hnodup Hexpr.
  distinct_names Hnodup.
  assert (Hcw : ARG_NAME_CONF <> ARG_NAME_WARN) by congruence.
  unfold make_code_raiser_hint_object_check_body, obind, oret.
  rewrite Hexpr.
  set (scope1 := <[ARG_NAME_HINT := ObjHint hint]>
                   (<[ARG_NAME_GET_VIOLATION := get_hint_object_violation]>
                      scope)).
  destruct (_make_code_raiser_violation_lookup conf scope1 None Hcw)
    as (Hc & Hw & Hother).
  destruct (_make_code_raiser_violation conf scope1 None)
    as [handle scope'] eqn:Hviolation.
  simpl in Hc, Hw, Hother. rewrite app_nil_r.
  eexists _, scope'. split; [reflexivity|].
  split; [|split; [|split; [exact Hc|split]]].
  - rewrite Hother by congruence. unfold scope1.
    rewrite lookup_insert_ne by congruence. apply lookup_insert_eq.
  - rewrite Hother by congruence. unfold scope1. apply lookup_insert_eq.
  - rewrite Hw. destruct (_is_violation_door_warn conf); [reflexivity|].
    unfold scope1. now rewrite !lookup_insert_ne by congruence.
  - intros name Hname.
    repeat (apply not_elem_of_cons in Hname as [? Hname]).
    rewrite Hother by congruence. unfold scope1.
    now rewrite !lookup_insert_ne by congruence.
Qed.

(** X3.  When the hint compiles, the code of the raiser of a parameter or
    return is the raiser prefix, the compiled expression, the call of the
    violation getter on the root pith, which passes the class stack exactly
    when there is a non-empty one and the random integer exactly when the
    compiler bound the random integer generator, and the snippet selected by
    the switch of its call site.  Its scope binds the violation getter of
    callables and the configuration and never binds the hint: the hint name
    and every other name stay as the compiler bound them. *)
Theorem make_code_raiser_func_pith_check_body_scope
    hint conf cls_stack is_param ws expr (scope : LexicalScope Hint) refs :
  NoDup [ARG_NAME_GET_VIOLATION; ARG_NAME_CONF; ARG_NAME_WARN] ->
  make_check_expr hint conf cls_stack = (ws, Return (expr, scope, refs)) ->
  exists scope',
    make_code_raiser_func_pith_check_body hint conf cls_stack is_param
    = (ws,
       Return
         (CODE_RAISER_FUNC_PITH_CHECK_PREFIX +:+ expr
            +:+ CODE_GET_FUNC_PITH_VIOLATION_format
                  (match cls_stack with
                   | Some (_ :: _) => CODE_GET_VIOLATION_CLS_STACK
                   | _ => ""
                   end)
                  (match scope !! ARG_NAME_GETRANDBITS with
                   | Some _ => CODE_GET_VIOLATION_RANDOM_INT
                   | None => ""
                   end)
                  CODE_PITH_ROOT_NAME_PLACEHOLDER
            +:+ (if is_violation_warn conf is_param
                 then CODE_WARN_VIOLATION else CODE_RAISE_VIOLATION),
          scope', refs)) /\
    scope' !! ARG_NAME_GET_VIOLATION = Some get_func_pith_violation /\
    scope' !! ARG_NAME_CONF = Some (ObjConf conf) /\
    forall name,
      name ∉ [ARG_NAME_GET_VIOLATION; ARG_NAME_CONF; ARG_NAME_WARN] ->
      scope' !! name = scope !! name.
Proof.
  intros Hnodup Hexpr.
  distinct_names Hnodup.
  assert (Hcw : ARG_NAME_CONF <> ARG_NAME_WARN) by congruence.
  unfold make_code_raiser_func_pith_check_body, obind, oret.
  rewrite Hexpr.
  set (scope1 := <[ARG_NAME_GET_VIOLATION := get_func_pith_violation]> scope).
  destruct (_make_code_raiser_violation_lookup conf scope1 is_param Hcw)
    as (Hc & Hw & Hother).
  pose proof (_make_code_raiser_violation_code conf scope1 is_param) as Hcode.
  destruct (_make_code_raiser_violation conf scope1 is_param)
    as [handle scope'] eqn:Hviolation.
  simpl in Hc, Hw, Hother, Hcode. subst handle. rewrite app_nil_r.
  exists scope'. split.
  { unfold scope_has. now destruct (scope !! ARG_NAME_GETRANDBITS). }
  split; [|split; [exact Hc|]].
  - rewrite Hother by congruence. unfold scope1. apply lookup_insert_eq.
  - intros name Hname.
    repeat (apply not_elem_of_cons in Hname as [? Hname]).
    rewrite Hother by congruence. unfold scope1.
    now rewrite lookup_insert_ne by congruence.
Qed.

(** X4.  The raiser of a [NoReturn] return is generated without compiling any
    hint: the factory always returns, with no warning and no forward
    reference; its code is the violation getter call on the return followed by
    the snippet selected by the return switch; and its scope binds the
    violation getter of callables, the configuration and, exactly when the
    return switch is set, [warnings.warn], and nothing else. *)
Theorem make_code_raiser_func_pep484_noreturn_check_body_scope conf :
  NoDup [ARG_NAME_GET_VIOLATION; ARG_NAME_CONF; ARG_NAME_WARN] ->
  exists scope',
    make_code_raiser_func_pep484_noreturn_check_body (Hint := Hint) conf
    = ([],
       Return
         (CODE_GET_FUNC_PITH_VIOLATION_format "" "" ARG_NAME_RETURN_REPR
            +:+ (if _is_violation_return_warn conf
                 then CODE_WARN_VIOLATION else CODE_RAISE_VIOLATION),
          scope', [])) /\
    scope' !! ARG_NAME_GET_VIOLATION = Some get_func_pith_violation /\
    scope' !! ARG_NAME_CONF = Some (ObjConf conf) /\
    scope' !! ARG_NAME_WARN
      = (if _is_violation_return_warn conf then Some warn else None) /\
    forall name,
      name ∉ [ARG_NAME_GET_VIOLATION; ARG_NAME_CONF; ARG_NAME_WARN] ->
      scope' !! name = None.
Proof.
  intros Hnodup.
  distinct_names Hnodup.
  assert (Hcw : ARG_NAME_CONF <> ARG_NAME_WARN) by congruence.
  unfold make_code_raiser_func_pep484_noreturn_check_body, oret.
  set (scope1 := <[ARG_NAME_GET_VIOLATION := get_func_pith_violation]>
                   (∅ : LexicalScope Hint)).
  destruct (_make_code_raiser_violation_lookup conf scope1 (Some false) Hcw)
    as (Hc & Hw & Hother).
  pose proof (_make_code_raiser_violation_code conf scope1 (Some false))
    as Hcode.
  destruct (_make_code_raiser_violation conf scope1 (Some false))
    as [handle scope'] eqn:Hviolation.
  simpl in Hc, Hw, Hother, Hcode. subst handle.
  exists scope'. split; [reflexivity|].
  split; [|split; [exact Hc|split]].
  - rewrite Hother by congruence. unfold scope1. apply lookup_insert_eq.
  - rewrite Hw. destruct (_is_violation_return_warn conf); [reflexivity|].
    unfold scope1. now rewrite lookup_insert_ne by congruence.
  - intros name Hname.
    repeat (apply not_elem_of_cons in Hname as [? Hname]).
    rewrite Hother by congruence. unfold scope1.
    now rewrite lookup_insert_ne by congruence.
Qed.

(** *** Further properties of the function factories *)

Lemma make_code_tester_check_body_inv hint conf code scope refs :
  snd (make_code_tester_check_body hint conf) = Return (code, scope, refs) ->
  exists expr,
    snd (make_check_expr hint conf None) = Return (expr, scope, refs) /\
    code = CODE_TESTER_CHECK_PREFIX +:+ expr.
Proof.
  unfold make_code_tester_check_body, obind, oret.
  destruct (make_check_expr hint conf None) as [ws [[[expr scope0] refs0]|e]];
    simpl; [|discriminate].
  intros [= <- <- <-]. eauto.
Qed.

(** X5.  An object that is not a configuration is rejected before anything
    else happens: whatever the hint, the code factory and the prefix,
    [_make_func_checker] raises [BeartypeConfException] and leaves the process
    exactly as it found it: nothing is sanified, captured, generated or
    drawn from the counter. *)
Theorem _make_func_checker_conf_first
    hint repr (make_code_check : Hint -> BeartypeConf -> M (CodeGenerated Hint))
    prefix s :
  exists e,
    _make_func_checker hint (NotConf repr) make_code_check prefix s
    = (s, Raise e) /\
    exception_cls e = BeartypeConfException.
Proof.
  destruct s as [n t r ct cr rec tr src d].
  unfold _make_func_checker, try_except, catch_warnings, bind; simpl.
  eexists. split; reflexivity.
Qed.

(** X6.  A function returned by [make_func_tester] on a request that the memo
    does not answer is the one [make_func] made from the signature rendered
    for the name drawn from the counter, followed by the tester prefix and the
    expression compiled for the sanified hint, over the scope of that
    expression, which has no forward reference; the request advances the
    counter by one. *)
Theorem make_func_tester_generated hint conf s func :
  wf_state s ->
  make_func_tester_cache s !! (hint, conf) = None ->
  snd (make_func_tester hint conf s) = Return (Generated func) ->
  exists conf' hint' expr scope sig,
    die_unless_conf conf = Return conf' /\
    snd (sanify_hint_root_statement hint conf' EXCEPTION_PLACEHOLDER)
      = Return hint' /\
    is_hint_ignorable hint' = false /\
    snd (make_check_expr hint' conf' None) = Return (expr, scope, []) /\
    snd (make_func_signature
           (FUNC_CHECKER_NAME_PREFIX
              +:+ pretty (_func_checker_name_counter s))
           scope CODE_CHECKER_SIGNATURE conf') = Return sig /\
    snd (make_func
           (FUNC_CHECKER_NAME_PREFIX
              +:+ pretty (_func_checker_name_counter s))
           (sig +:+ CODE_TESTER_CHECK_PREFIX +:+ expr) scope
           "die_if_unbearable() or is_bearable() type-checker"
           (is_debug conf')) = Return func /\
    _func_checker_name_counter (fst (make_func_tester hint conf s))
    = S (_func_checker_name_counter s).
Proof.
  intros Hwf Hmiss Hres.
  destruct (make_func_tester_miss _ _ _ Hwf Hmiss) as (s1 & Hrun & Hstate).
  rewrite Hstate, Hres. rewrite Hres in Hrun. clear Hstate Hres.
  inversion Hrun; subst.
  match goal with
  | Hb : snd (make_code_tester_check_body _ _) = _ |- _ =>
      apply make_code_tester_check_body_inv in Hb as (expr & Hexpr & ->)
  end.
  exists conf', hint', expr, scope, sig.
  repeat match goal with
         | Hs : sanify_hint_root_statement _ _ _ = _ |- _ => rewrite Hs; clear Hs
         | Hs : make_func_signature _ _ _ _ = _ |- _ =>
             unfold func_checker_name in Hs; rewrite Hs; clear Hs
         | Hs : make_func _ _ _ _ _ = _ |- _ =>
             unfold func_checker_name in Hs; rewrite Hs; clear Hs
         end.
  simpl. auto 10.
Qed.

(** X7.  A request whose synthesis fails consumes a name: when the code is
    generated without forward references but [make_func_signature] or
    [make_func] raises, [make_func_tester] raises that exception with the
    placeholder replaced, no function is made, and the counter has advanced
    by one all the same. *)
Theorem synthesis_failure_consumes_name
    hint conf hint' ws expr scope e s :
  wf_state s ->
  make_func_tester_cache s !! (hint, IsConf conf) = None ->
  snd (sanify_hint_root_statement hint conf EXCEPTION_PLACEHOLDER)
    = Return hint' ->
  is_hint_ignorable hint' = false ->
  make_check_expr hint' conf None = (ws, Return (expr, scope, [])) ->
  (snd (make_func_signature (func_checker_name (_func_checker_name_counter s))
          scope CODE_CHECKER_SIGNATURE conf) = Raise e \/
   exists sig,
     snd (make_func_signature
            (func_checker_name (_func_checker_name_counter s))
            scope CODE_CHECKER_SIGNATURE conf) = Return sig /\
     snd (make_func (func_checker_name (_func_checker_name_counter s))
            (sig +:+ CODE_TESTER_CHECK_PREFIX +:+ expr) scope
            "die_if_unbearable() or is_bearable() type-checker"
            (is_debug conf)) = Raise e) ->
  snd (make_func_tester hint (IsConf conf) s)
  = Raise (reraised exception_prefix_default e) /\
  _func_checker_name_counter (fst (make_func_tester hint (IsConf conf) s))
  = S (_func_checker_name_counter s) /\
  made_names (trace (fst (make_func_tester hint (IsConf conf) s)))
  = made_names (trace s).
Proof.
  intros Hwf Hmiss Hsan Hign Hexpr Hfail.
  pose proof (make_code_tester_check_body_result _ _ _ _ _ _ Hexpr) as Hbody.
  apply (f_equal snd) in Hbody; simpl in Hbody.
  destruct (make_func_tester_miss _ _ _ Hwf Hmiss) as (s1 & Hrun & ->).
  destruct Hfail as [Hsig | (sig & Hsig & Hfunc)];
    destruct Hrun; unify_run;
    (split; [reflexivity|]); (split; [reflexivity|]); now simpl_events.
Qed.

(** X8.  Between requests no [catch_warnings] block is active: every request,
    whether it returns or raises, restores the warnings state it found. *)
Theorem reachable_not_recording s :
  reachable s -> warnings_recorded s = None.
Proof. intros Hreach. apply wf_not_recording, reachable_wf, Hreach. Qed.

End FactoryProperties.

(** ** The concrete world *)

Section ScenarioProperties.

Import Check Scenario.

Lemma make_func_tester_ignorable_witness :
  exists func,
    snd (tester HAny conf0 start) = Return func /\
    (forall obj s0, check func obj s0 = (s0, Return (RetBool true))) /\
    code_check_calls (trace (fst (tester HAny conf0 start)))
    = code_check_calls (trace start).
Proof.
  exact (@make_func_tester_ignorable Hint _ _ magic collaborators
           HAny BEARTYPE_CONF_DEFAULT HAny start
           (wf_initial_state _) eq_refl eq_refl).
Defined.

Lemma make_func_raiser_ignorable_witness :
  snd (raiser (HType "object") (IsConf conf_param_warn) start)
    = Return Ignorable /\
  snd (tester (HType "object") (IsConf conf_param_warn) start)
    = Return Ignorable /\
  check Ignorable VNone start = (start, Return (RetBool true)) /\
  check Ignorable (VInt 0) start = (start, Return (RetBool true)) /\
  check Ignorable (VInstance "Custom" 1) start = (start, Return (RetBool true)).
Proof.
  destruct (@make_func_raiser_ignorable Hint _ _ magic collaborators
              (HType "object") conf_param_warn (HType "object") start start
              (wf_initial_state _) (wf_initial_state _) eq_refl eq_refl)
    as (Hraiser & Htester & Hcall & _).
  split; [exact Hraiser|]. split; [exact Htester|].
  split; [apply Hcall|]. split; apply Hcall.
Defined.

Lemma forward_reference_rejected_witness :
  (exists e,
     snd (tester (HForwardRef "Foo") conf0 start) = Raise e /\
     exception_cls e = BeartypeDecorHintForwardRefException /\
     made_names (trace (fst (tester (HForwardRef "Foo") conf0 start)))
     = made_names (trace start) /\
     _func_checker_name_counter (fst (tester (HForwardRef "Foo") conf0 start))
     = _func_checker_name_counter start) /\
  (exists e,
     snd (raiser (HForwardRef "Foo") conf0 start) = Raise e /\
     exception_cls e = BeartypeDecorHintForwardRefException /\
     made_names (trace (fst (raiser (HForwardRef "Foo") conf0 start)))
     = made_names (trace start) /\
     _func_checker_name_counter (fst (raiser (HForwardRef "Foo") conf0 start))
     = _func_checker_name_counter start).
Proof.
  exact (@forward_reference_rejected Hint _ _ magic collaborators
           (HForwardRef "Foo") BEARTYPE_CONF_DEFAULT (HForwardRef "Foo")
           [] "__beartype_object_0({obj})"
           {[ ARG_NAME_CHECK := ObjHint (HForwardRef "Foo") ]} "Foo" [] start
           (wf_initial_state _) eq_refl eq_refl eq_refl).
Defined.

Lemma returned_spec (r : State Hint * Result (Callable Hint)) :
  returns r = true -> r = (fst r, Return (returned r)).
Proof.
  destruct r as [s [func|e]]; unfold returns, returned; simpl;
    [reflexivity|discriminate].
Qed.

Lemma generated_spec (r : State Hint * Result (Callable Hint)) :
  is_generated r = true -> snd r = Return (Generated (generated r)).
Proof.
  destruct r as [s [[|f]|e]]; unfold is_generated, generated; simpl;
    reflexivity || discriminate.
Qed.

Lemma make_func_tester_memoized_witness :
  let first := tester list_of_int conf0 start in
  tester list_of_int conf0 (fst first) = (fst first, Return (returned first)).
Proof.
  intros first.
  refine (proj1 (@make_func_tester_memoized Hint _ _ magic collaborators
                   list_of_int conf0 start (fst first) (returned first) _)).
  apply (returned_spec first). vm_compute. reflexivity.
Defined.

(** *** Repeated checks *)














Lemma exceptions_propagate_witness :
  let memoized :=
    fst (@make_func_tester Hint _ _ magic collaborators_testers_only
           (HType "int") conf0 start) in
  snd (tester (HUnsupported "3") conf0 start)
  = Raise (mkException BeartypeDecorHintNonpepException
             "die_if_unbearable() or is_bearable() type hint 3 unsupported.") /\
  is_Some (make_func_tester_cache memoized !! (HType "int", conf0)) /\
  snd (@make_func_raiser Hint _ _ magic collaborators_testers_only
         (HType "int") conf0 memoized)
  = Raise (mkException _BeartypeUtilCallableException
             ("die_if_unbearable() or is_bearable() type-checker "
                +:+ "__beartype_checker_1 unparseable.")).
Proof.
  intros memoized. split; [|split; [vm_compute; eauto|]].
  - refine (proj1 (proj1 (@exceptions_propagate Hint _ _ magic collaborators
                            (HUnsupported "3") conf0 start
                            (wf_initial_state _)) eq_refl)
              (mkException BeartypeDecorHintNonpepException
                 "$%ROOT_PITH_LABEL/~type hint 3 unsupported.") _).
    eapply raised_by_sanify; reflexivity.
  - refine (proj1 (proj2 (@exceptions_propagate Hint _ _ magic
                            collaborators_testers_only
                            (HType "int") conf0 memoized
                            (make_func_tester_wf _ _ _ (wf_initial_state _)))
                     _)
              (mkException _BeartypeUtilCallableException
                 ("die_if_unbearable() or is_bearable() type-checker "
                    +:+ "__beartype_checker_1 unparseable.")) _).
    + vm_compute. reflexivity.
    + eapply raised_by_make_func; reflexivity.
Defined.



Lemma func_named name code scope label debug f :
  snd (func name code scope label debug) = Return f -> func_name f = name.
Proof.
  unfold func. destruct (String.prefix "def " code); simpl; [|discriminate].
  now intros [= <-].
Qed.

Lemma func_checker_names_unique_witness :
  let first := tester (HType "int") conf0 start in
  let between :=
    run [MakeFuncTester (HType "int") conf0;
         CallChecker (returned first) (VInt 5);
         MakeFuncTester (HUnsupported "3") conf0] (fst first) in
  let second := raiser (HType "int") conf0 between in
  func_name (generated first) = "__beartype_checker_0" /\
  func_name (generated second) = "__beartype_checker_1" /\
  func_name (generated first) <> func_name (generated second).
Proof.
  intros first between second.
  destruct (@func_checker_names_unique Hint _ _ magic collaborators start
              (MakeFuncTester (HType "int") conf0)
              (MakeFuncRaiser (HType "int") conf0)
              [MakeFuncTester (HType "int") conf0;
               CallChecker (returned first) (VInt 5);
               MakeFuncTester (HUnsupported "3") conf0]
              (generated first) (generated second))
    as (n1 & n2 & Hn1 & _ & Hn2 & _ & _ & _ & _ & Hnames).
  - constructor.
  - split; [reflexivity|]. apply (generated_spec first).
    vm_compute. reflexivity.
  - split; [vm_compute; reflexivity|]. apply (generated_spec second).
    vm_compute. reflexivity.
  - assert (Hone : n1 = 0) by (rewrite Hn1; reflexivity).
    assert (Htwo : n2 = 1) by (rewrite Hn2; vm_compute; reflexivity).
    subst n1 n2. rewrite Hone, Htwo in Hnames.
    apply Hnames. intros name code scope label debug f.
    apply func_named.
Defined.

(** A raiser of the DOOR type-checkers run on a violation: under a
    configuration whose DOOR switch is set it issues a warning and returns
    [None]; under the default configuration it raises. *)
Example raiser_door_policy :
  let warning_conf := IsConf (mkConf false true false false) in
  let warning := raiser (HType "int") warning_conf start in
  let raising := raiser (HType "int") conf0 start in
  let warned := check (returned warning) (VStr "a") (fst warning) in
  let raised := check (returned raising) (VStr "a") (fst raising) in
  snd warned = Return RetNone /\
  issued_warnings (events_since (fst warning) (fst warned))
  = [mkWarning "BeartypeDoorHintViolation" "violates type hint int"] /\
  snd raised
  = Raise (mkException BeartypeCallHintViolation "violates type hint int") /\
  issued_warnings (events_since (fst raising) (fst raised)) = [].
Proof. vm_compute. repeat split. Qed.

End ScenarioProperties.
(** ** Further instances in the concrete world *)

Section ScenarioInstances.

Import Check Scenario.

Lemma magic_names_distinct :
  NoDup [@ARG_NAME_GET_VIOLATION magic; @ARG_NAME_HINT magic;
         @ARG_NAME_CONF magic; @ARG_NAME_WARN magic].
Proof. apply (bool_decide_unpack _). vm_compute. exact I. Qed.

Lemma magic_names_distinct_pith :
  NoDup [@ARG_NAME_GET_VIOLATION magic; @ARG_NAME_CONF magic;
         @ARG_NAME_WARN magic].
Proof. apply (bool_decide_unpack _). vm_compute. exact I. Qed.

Lemma _make_code_raiser_violation_scope_witness :
  let scope : LexicalScope Hint :=
    {[ "__beartype_warn" := ObjCaptured "stale";
       ARG_NAME_CHECK := ObjHint (HType "int") ]} in
  let warning :=
    snd (@_make_code_raiser_violation Hint magic conf_param_warn scope
           (Some true)) in
  let raising :=
    snd (@_make_code_raiser_violation Hint magic conf_param_warn scope
           (Some false)) in
  warning !! "__beartype_conf" = Some (ObjConf conf_param_warn) /\
  warning !! "__beartype_warn" = Some warn /\
  warning !! ARG_NAME_CHECK = scope !! ARG_NAME_CHECK /\
  raising !! "__beartype_conf" = Some (ObjConf conf_param_warn) /\
  raising !! "__beartype_warn" = scope !! "__beartype_warn".
Proof.
  intros scope warning raising.
  destruct (@_make_code_raiser_violation_scope Hint magic conf_param_warn
              scope (Some true) ltac:(discriminate)) as (Hc & Hw & Hother).
  destruct (@_make_code_raiser_violation_scope Hint magic conf_param_warn
              scope (Some false) ltac:(discriminate)) as (Hc' & Hw' & _).
  split; [exact Hc|]. split; [exact Hw|].
  split; [apply Hother; discriminate|].
  split; [exact Hc'|exact Hw'].
Defined.

Lemma make_code_raiser_hint_object_check_body_scope_witness :
  exists code scope',
    @make_code_raiser_hint_object_check_body Hint magic collaborators
      list_of_int BEARTYPE_CONF_DEFAULT
    = ([], Return (code, scope', [])) /\
    scope' !! "__beartype_get_violation" = Some get_hint_object_violation /\
    scope' !! "__beartype_hint" = Some (ObjHint list_of_int) /\
    scope' !! "__beartype_conf" = Some (ObjConf BEARTYPE_CONF_DEFAULT) /\
    scope' !! "__beartype_warn" = None /\
    scope' !! "__beartype_getrandbits" = Some getrandbits.
Proof.
  destruct (@make_code_raiser_hint_object_check_body_scope Hint magic
              collaborators list_of_int BEARTYPE_CONF_DEFAULT []
              "__beartype_object_0({obj})"
              (<[ "__beartype_getrandbits" := getrandbits ]>
                 {[ ARG_NAME_CHECK := ObjHint list_of_int ]}) []
              magic_names_distinct eq_refl)
    as (code & scope' & Hbody & Hget & Hhint & Hconf & Hwarn & Hother).
  exists code, scope'. split; [exact Hbody|].
  split; [exact Hget|]. split; [exact Hhint|]. split; [exact Hconf|].
  split; [exact Hwarn|].
  rewrite Hother; [reflexivity|].
  apply (bool_decide_unpack _). vm_compute. exact I.
Defined.

Lemma make_code_raiser_func_pith_check_body_scope_witness :
  exists scope',
    @make_code_raiser_func_pith_check_body Hint magic collaborators
      list_of_int conf_param_warn (Some ["MuhClass"]) (Some true)
    = ([],
       Return
         (" if not __beartype_object_0({obj})"
            +:+ ": violation = __beartype_get_violation(pith_name=?|PITH_ROOT_NAME`^, cls_stack=cls_stack, random_int=random_int);"
            +:+ " __beartype_warn(violation)",
          scope', [])) /\
    scope' !! "__beartype_get_violation" = Some get_func_pith_violation /\
    scope' !! "__beartype_conf" = Some (ObjConf conf_param_warn) /\
    scope' !! "__beartype_hint" = None.
Proof.
  destruct (@make_code_raiser_func_pith_check_body_scope Hint magic
              collaborators list_of_int conf_param_warn (Some ["MuhClass"])
              (Some true) []
              "__beartype_object_0({obj})"
              (<[ "__beartype_getrandbits" := getrandbits ]>
                 {[ ARG_NAME_CHECK := ObjHint list_of_int ]}) []
              magic_names_distinct_pith eq_refl)
    as (scope' & Hbody & Hget & Hconf & Hother).
  exists scope'. split; [exact Hbody|].
  split; [exact Hget|]. split; [exact Hconf|].
  rewrite Hother; [reflexivity|].
  apply (bool_decide_unpack _). vm_compute. exact I.
Defined.

Lemma make_code_raiser_func_pep484_noreturn_check_body_scope_witness :
  exists scope',
    @make_code_raiser_func_pep484_noreturn_check_body Hint magic
      BEARTYPE_CONF_DEFAULT
    = ([],
       Return
         (": violation = __beartype_get_violation(pith_name='return');"
            +:+ " raise violation",
          scope', [])) /\
    scope' !! "__beartype_get_violation" = Some get_func_pith_violation /\
    scope' !! "__beartype_conf" = Some (ObjConf BEARTYPE_CONF_DEFAULT) /\
    scope' !! "__beartype_warn" = None /\
    scope' !! "__beartype_hint" = None.
Proof.
  destruct (@make_code_raiser_func_pep484_noreturn_check_body_scope Hint magic
              BEARTYPE_CONF_DEFAULT magic_names_distinct_pith)
    as (scope' & Hbody & Hget & Hconf & Hwarn & Hother).
  exists scope'. split; [exact Hbody|].
  split; [exact Hget|]. split; [exact Hconf|]. split; [exact Hwarn|].
  apply Hother. apply (bool_decide_unpack _). vm_compute. exact I.
Defined.

Lemma make_func_tester_generated_witness :
  let func :=
    mkPyFunction "__beartype_checker_0"
      "def __beartype_checker_0(obj): return __beartype_object_0({obj})"
      ({[ ARG_NAME_CHECK := ObjHint (HType "int") ]} : LexicalScope Hint) in
  snd (tester (HType "int") conf0 start) = Return (Generated func) /\
  _func_checker_name_counter (fst (tester (HType "int") conf0 start)) = 1.
Proof.
  intros func.
  assert (Hres : snd (tester (HType "int") conf0 start)
                 = Return (Generated func)) by (vm_compute; reflexivity).
  split; [exact Hres|].
  destruct (@make_func_tester_generated Hint _ _ magic collaborators
              (HType "int") conf0 start func
              (wf_initial_state _) eq_refl Hres)
    as (_ & _ & _ & _ & _ & _ & _ & _ & _ & _ & _ & Hcounter).
  exact Hcounter.
Defined.

Lemma synthesis_failure_consumes_name_witness :
  let request :=
    @make_func_tester Hint _ _ magic collaborators_unparseable
      (HType "int") conf0 start in
  snd request
  = Raise (mkException _BeartypeUtilCallableException
             ("die_if_unbearable() or is_bearable() type-checker "
                +:+ "__beartype_checker_0 unparseable.")) /\
  _func_checker_name_counter (fst request) = 1 /\
  made_names (trace (fst request)) = [].
Proof.
  exact (@synthesis_failure_consumes_name Hint _ _ magic
           collaborators_unparseable
           (HType "int") BEARTYPE_CONF_DEFAULT (HType "int") []
           "__beartype_object_0({obj})"
           {[ ARG_NAME_CHECK := ObjHint (HType "int") ]}
           (mkException _BeartypeUtilCallableException
              ("die_if_unbearable() or is_bearable() type-checker "
                 +:+ "__beartype_checker_0 unparseable."))
           start (wf_initial_state _) eq_refl eq_refl eq_refl eq_refl
           (or_intror (ex_intro _ "" (conj eq_refl eq_refl)))).
Defined.

Lemma reachable_not_recording_witness :
  warnings_recorded
    (run [MakeFuncTester (HDeprecated "typing.List" list_of_int) conf0;
          MakeFuncRaiser (HForwardRef "Foo") conf0;
          MakeFuncTester (HUnsupported "3") conf0] start)
  = None.
Proof.
  apply (@reachable_not_recording Hint _ _ magic collaborators).
  apply run_requests_reachable. constructor.
Defined.

End ScenarioInstances.

(** ** The AST transformer *)

Section ClawProperties.

Import Claw.

Context `{!Magic} `{!Munge}.

Variable conf : BeartypeConf.

Lemma pop_append node stack : pop (stack ++ [node]) = (stack, Return tt).
Proof.
  unfold pop. destruct (stack ++ [node]) eqn:Hstack.
  - now destruct stack.
  - now rewrite <- Hstack, removelast_last.
Qed.

Lemma visit_ClassDef_eq name body decorator_list :
  visit conf (ClassDef name body decorator_list)
  = bind (append (NodeStmt (ClassDef name body
                              (decorate_node
                                 (ClassDef name body decorator_list) conf))))
      (fun _ =>
         bind (visit_all conf body) (fun body' =>
         bind pop (fun _ =>
         ret [ClassDef name body'
                (decorate_node (ClassDef name body decorator_list) conf)]))).
Proof. reflexivity. Qed.

Lemma visit_FunctionDef_eq name args body decorator_list returns stack :
  visit conf (FunctionDef name args body decorator_list returns) stack
  = if is_parent_ClassDef stack
    then (stack, Return [FunctionDef name args body decorator_list returns])
    else
      let decorator_list' :=
        if is_node_callable_typed
             (FunctionDef name args body decorator_list returns)
        then decorate_node
               (FunctionDef name args body decorator_list returns) conf
        else decorator_list in
      bind (append (NodeStmt (FunctionDef name args body decorator_list'
                                returns)))
        (fun _ =>
           bind (visit_all conf body) (fun body' =>
           bind pop (fun _ =>
           ret [FunctionDef name args body' decorator_list' returns])))
        stack.
Proof. reflexivity. Qed.

Lemma visit_Block_eq cls body orelse :
  visit conf (Block cls body orelse)
  = bind (append (NodeStmt (Block cls body orelse))) (fun _ =>
    bind (visit_all conf body) (fun body' =>
    bind (visit_all conf orelse) (fun orelse' =>
    bind pop (fun _ => ret [Block cls body' orelse'])))).
Proof. reflexivity. Qed.

Lemma visit_leaf node stack :
  match node with
  | Expr _ | ImportFrom _ _ _ | Statement _ _ => True
  | _ => False
  end ->
  visit conf node stack = (stack, Return [node]).
Proof.
  destruct node; try contradiction; intros _;
    cbn [visit]; unfold bind, append; now rewrite pop_append.
Qed.

Lemma visit_AnnAssign_stack node stack :
  stack_kept stack (visit_AnnAssign conf node stack).
Proof.
  destruct node; try reflexivity. unfold visit_AnnAssign.
  destruct (negb (claw_is_pep526 conf) || (simple =? 0)%Z
            || bool_decide (value = None)); [reflexivity|].
  destruct target; try reflexivity; split; reflexivity.
Qed.

Lemma visit_all_stack nodes :
  Forall (fun node => forall stack, stack_kept stack (visit conf node stack))
    nodes ->
  forall stack, stack_kept stack (visit_all conf nodes stack).
Proof.
  induction 1 as [|child rest Hchild _ IH]; intros stack; [reflexivity|].
  cbn [visit_all]. unfold bind at 1.
  specialize (Hchild stack).
  destruct (visit conf child stack) as [stack1 [new_values|e]];
    simpl in Hchild; [subst stack1|exact Hchild].
  unfold bind. specialize (IH stack).
  destruct (visit_all conf rest stack) as [stack2 [rest_values|e]];
    simpl in IH; [subst stack2; reflexivity|exact IH].
Qed.

(** The body of [generic_visit]: push, visit the children, pop. *)
Lemma generic_visit_stack {A} parent nodes (k : list stmt -> A) stack :
  (forall stack', stack_kept stack' (visit_all conf nodes stack')) ->
  stack_kept stack
    (bind (append parent) (fun _ =>
     bind (visit_all conf nodes) (fun nodes' =>
     bind pop (fun _ => ret (k nodes')))) stack).
Proof.
  intros Hall. unfold bind at 1, append. unfold bind at 1.
  specialize (Hall (stack ++ [parent])).
  destruct (visit_all conf nodes (stack ++ [parent])) as [stack1 [nodes'|e]];
    simpl in Hall.
  - subst stack1. unfold bind. now rewrite pop_append.
  - destruct Hall as [Hprefix Hcls]. split; [|exact Hcls].
    etrans; [|exact Hprefix]. now apply prefix_app_r.
Qed.

(** X12.  A visit that returns leaves the stack of parents as it found it,
    and popping the stack never fails; a visit raises only the assertion on
    the target of an annotated assignment, and then leaves on the stack the
    parents it had pushed. *)
Theorem visit_keeps_stack node stack :
  stack_kept stack (visit conf node stack).
Proof.
  revert stack. induction node using stmt_children_ind; intros stack.
  - now rewrite visit_leaf.
  - now rewrite visit_leaf.
  - apply visit_AnnAssign_stack.
  - rewrite visit_ClassDef_eq. apply generic_visit_stack.
    now apply visit_all_stack.
  - rewrite visit_FunctionDef_eq.
    destruct (is_parent_ClassDef stack); [reflexivity|].
    apply generic_visit_stack. now apply visit_all_stack.
  - rewrite visit_Block_eq.
    pose proof (visit_all_stack body H1) as Hbody.
    pose proof (visit_all_stack orelse H2) as Horelse.
    unfold bind at 1, append. unfold bind at 1.
    specialize (Hbody (stack ++ [NodeStmt (Block cls body orelse)])).
    destruct (visit_all conf body _) as [stack1 [body'|e]]; simpl in Hbody.
    + subst stack1. unfold bind at 1.
      specialize (Horelse (stack ++ [NodeStmt (Block cls body orelse)])).
      destruct (visit_all conf orelse _) as [stack2 [orelse'|e]];
        simpl in Horelse.
      * subst stack2. unfold bind. now rewrite pop_append.
      * destruct Horelse as [Hprefix Hcls]. split; [|exact Hcls].
        etrans; [|exact Hprefix]. now apply prefix_app_r.
    + destruct Hbody as [Hprefix Hcls]. split; [|exact Hcls].
      etrans; [|exact Hprefix]. now apply prefix_app_r.
  - now rewrite visit_leaf.
Qed.


(** *** Visits that return *)

Lemma visit_AnnAssign_returns node stack :
  claw_is_pep526 conf = false \/ targets_named node = true ->
  exists nodes, visit_AnnAssign conf node stack = (stack, Return nodes).
Proof.
  intros Hnamed. destruct node; try (eexists; reflexivity).
  unfold visit_AnnAssign.
  destruct Hnamed as [-> | Hnamed]; [eexists; reflexivity|].
  cbn [targets_named] in Hnamed.
  destruct (claw_is_pep526 conf); [|eexists; reflexivity].
  destruct (simple =? 0)%Z; [eexists; reflexivity|].
  destruct (bool_decide (value = None)); [eexists; reflexivity|].
  destruct target; try discriminate. eexists; reflexivity.
Qed.

Definition returns_when_named (node : stmt) : Prop :=
  claw_is_pep526 conf = false \/ targets_named node = true ->
  forall stack, exists nodes, visit conf node stack = (stack, Return nodes).

Lemma visit_all_returns nodes :
  Forall returns_when_named nodes ->
  claw_is_pep526 conf = false \/ forallb targets_named nodes = true ->
  forall stack,
    exists nodes', visit_all conf nodes stack = (stack, Return nodes').
Proof.
  induction 1 as [|child rest Hchild _ IH]; intros Hnamed stack;
    [eexists; reflexivity|].
  assert (Hsplit :
            (claw_is_pep526 conf = false \/ targets_named child = true) /\
            (claw_is_pep526 conf = false
             \/ forallb targets_named rest = true)).
  { destruct Hnamed as [Hoff | Hnamed]; [auto|].
    cbn [forallb] in Hnamed. apply andb_prop in Hnamed as [? ?]. auto. }
  destruct Hsplit as [Hhead Htail].
  destruct (Hchild Hhead stack) as (new_values & Hvisit).
  destruct (IH Htail stack) as (rest_values & Hrest).
  cbn [visit_all]. unfold bind. rewrite Hvisit, Hrest. eexists; reflexivity.
Qed.

Lemma generic_visit_returns {A} parent nodes (k : list stmt -> A) stack :
  (forall stack',
     exists nodes', visit_all conf nodes stack' = (stack', Return nodes')) ->
  exists nodes',
    visit_all conf nodes (stack ++ [parent])
    = (stack ++ [parent], Return nodes') /\
    bind (append parent) (fun _ =>
    bind (visit_all conf nodes) (fun nodes' =>
    bind pop (fun _ => ret (k nodes')))) stack
    = (stack, Return (k nodes')).
Proof.
  intros Hall. destruct (Hall (stack ++ [parent])) as (nodes' & Hvisit).
  exists nodes'. split; [exact Hvisit|].
  unfold bind, append. now rewrite Hvisit, pop_append.
Qed.

(** X13.  The transformer returns, with the stack as it found it, on every
    tree in which each annotated assignment that is simple and has a value
    assigns to a name, and on every tree when the checks of annotated
    assignments are disabled. *)
Theorem visit_returns node stack :
  claw_is_pep526 conf = false \/ targets_named node = true ->
  exists nodes, visit conf node stack = (stack, Return nodes).
Proof.
  intros Hnamed. revert Hnamed stack.
  change (returns_when_named node).
  induction node using stmt_children_ind; intros Hnamed stack.
  - eexists. now apply visit_leaf.
  - eexists. now apply visit_leaf.
  - now apply visit_AnnAssign_returns.
  - rewrite visit_ClassDef_eq.
    edestruct (generic_visit_returns (A := list stmt)) as (body' & _ & ->);
      [|eexists; reflexivity].
    now apply visit_all_returns.
  - rewrite visit_FunctionDef_eq.
    destruct (is_parent_ClassDef stack); [eexists; reflexivity|].
    edestruct (generic_visit_returns (A := list stmt)) as (body' & _ & ->);
      [|eexists; reflexivity].
    now apply visit_all_returns.
  - rewrite visit_Block_eq.
    assert (Hsplit :
              (claw_is_pep526 conf = false
               \/ forallb targets_named body = true) /\
              (claw_is_pep526 conf = false
               \/ forallb targets_named orelse = true)).
    { destruct Hnamed as [Hoff | Hnamed]; [auto|].
      cbn [targets_named] in Hnamed.
      apply andb_prop in Hnamed as [? ?]. auto. }
    destruct Hsplit as [Hbody Horelse].
    destruct (visit_all_returns body H1 Hbody
                (stack ++ [NodeStmt (Block cls body orelse)]))
      as (body' & Hvisit).
    destruct (visit_all_returns orelse H2 Horelse
                (stack ++ [NodeStmt (Block cls body orelse)]))
      as (orelse' & Hvisit').
    unfold bind, append. rewrite Hvisit, Hvisit', pop_append.
    eexists; reflexivity.
  - eexists. now apply visit_leaf.
Qed.

(** *** Methods *)

Lemma is_parent_ClassDef_append stack name body decorator_list :
  is_parent_ClassDef (stack ++ [NodeStmt (ClassDef name body decorator_list)])
  = true.
Proof. unfold is_parent_ClassDef. now rewrite last_snoc. Qed.

Lemma visit_all_methods nodes stack :
  Forall (fun node => is_FunctionDef node = true) nodes ->
  is_parent_ClassDef stack = true ->
  visit_all conf nodes stack = (stack, Return nodes).
Proof.
  intros Hmethods Hparent.
  induction Hmethods as [|child rest Hchild _ IH]; [reflexivity|].
  cbn [visit_all]. unfold bind.
  destruct child; try discriminate.
  rewrite visit_FunctionDef_eq, Hparent, IH. reflexivity.
Qed.

(** X14.  Methods are left to the decorator of their class: on a class whose
    body consists of function definitions the transformer changes the
    decorator list of the class and nothing else, whatever the methods are
    annotated with and whatever their bodies hold. *)
Theorem visit_ClassDef_methods name body decorator_list stack :
  Forall (fun node => is_FunctionDef node = true) body ->
  visit conf (ClassDef name body decorator_list) stack
  = (stack,
     Return [ClassDef name body
               (decorate_node (ClassDef name body decorator_list) conf)]).
Proof.
  intros Hmethods. rewrite visit_ClassDef_eq. unfold bind, append.
  rewrite (visit_all_methods body _ Hmethods)
    by apply is_parent_ClassDef_append.
  now rewrite pop_append.
Qed.

(** *** What the transformer adds *)










(** *** The imports of a module *)

Lemma node_import_beartype_attrs_spec body :
  forall index last first,
    exists k prev,
      node_import_beartype_attrs index (first :: body) last
      = ((index + Z.of_nat k)%Z, NodeStmt prev) /\
      (first :: body) !! k = Some prev /\
      Forall (fun node => is_docstring_or_future node = true)
        (take k (first :: body)) /\
      (is_docstring_or_future prev = false \/ k = length body).
Proof.
  induction body as [|second body IH]; intros index last first.
  - cbn [node_import_beartype_attrs].
    exists 0, first. rewrite Z.add_0_r.
    destruct (is_docstring_or_future first);
      (split; [reflexivity|]); (split; [reflexivity|]);
      (split; [constructor|]); auto.
  - cbn [node_import_beartype_attrs].
    destruct (is_docstring_or_future first) eqn:Hfirst.
    + destruct (IH (index + 1)%Z (index, NodeStmt first) second)
        as (k & prev & Hloop & Hlook & Hbefore & Hlast).
      exists (S k), prev.
      cbn [node_import_beartype_attrs] in Hloop. rewrite Hloop.
      split; [f_equal; lia|]. split; [exact Hlook|].
      split; [cbn [take]; now constructor|].
      destruct Hlast as [Hlast | ->]; [now left|now right].
    + exists 0, first. rewrite Z.add_0_r.
      split; [reflexivity|]. split; [reflexivity|].
      split; [constructor|]. now left.
Qed.

(** X16.  An empty module is left as it is.  In a module with statements the
    three imports are inserted together, before the first statement that is
    neither a docstring nor a future import, or, when every statement is
    one, before the last statement; they are made beside the statement they
    are inserted before, every statement of the module is kept in its place
    around them, and the module is traversed after the insertion. *)
Theorem visit_Module_imports :
  (forall stack,
     visit_Module conf (Module []) stack = (stack, Return (Module []))) /\
  forall first rest,
    let body := first :: rest in
    exists index node_import_prev,
      body !! index = Some node_import_prev /\
      Forall (fun node => is_docstring_or_future node = true)
        (take index body) /\
      (is_docstring_or_future node_import_prev = false
       \/ index = length rest) /\
      visit_Module conf (Module body)
      = generic_visit_Module conf
          (Module (take index body
                     ++ beartype_imports (NodeStmt node_import_prev)
                     ++ drop index body)).
Proof.
  split.
  - intros stack. unfold visit_Module, generic_visit_Module, bind, append.
    cbn. now rewrite pop_append.
  - intros first rest body. subst body.
    destruct (node_import_beartype_attrs_spec rest 0%Z
                ((-1)%Z, NodeModule (Module (first :: rest))) first)
      as (k & prev & Hloop & Hlook & Hbefore & Hlast).
    exists k, prev. split; [exact Hlook|]. split; [exact Hbefore|].
    split; [exact Hlast|].
    unfold visit_Module. rewrite Hloop.
    replace (0 <=? 0 + Z.of_nat k)%Z with true by (symmetry; apply Z.leb_le; lia).
    replace (Z.to_nat (0 + Z.of_nat k)) with k by lia.
    reflexivity.
Qed.

End ClawProperties.

(** ** Instances in the concrete world of the transformer *)

Section ClawInstances.

Import Claw ClawScenario.

Lemma visit_returns_witness :
  exists nodes,
    @visit magic munge conf_default
      (Block "If" [MuhClass; muh_func] [muh_attr]) []
    = ([], Return nodes).
Proof.
  exact (@visit_returns magic munge conf_default
           (Block "If" [MuhClass; muh_func] [muh_attr]) []
           (or_intror eq_refl)).
Defined.

Lemma visit_ClassDef_methods_witness :
  @visit magic munge conf_default MuhClass []
  = ([], Return [ClassDef "MuhClass" [muh_func] [Name "__beartype__" Load]]).
Proof.
  refine (@visit_ClassDef_methods magic munge conf_default
            "MuhClass" [muh_func] [] [] _).
  repeat constructor.
Defined.


(** The transformer on the sample module: the imports follow the docstring
    and the future import, the class and the function are decorated, the
    method is not, and the assignments outside the method are checked. *)
Example visit_Module_muh_module :
  let import module_name source target :=
    ImportFrom (Some module_name) [mkAlias source (Some target)] 0 in
  let check :=
    Expr (Call (Name "__die_if_unbearable_beartype__" Load)
            [Name "muh_attr" Load; Name "int" Load] []) in
  @visit_Module magic munge conf_default muh_module []
  = ([],
     Return
       (Module
          [Expr (Str "Docstring.");
           ImportFrom (Some "__future__") [mkAlias "annotations" None] 0;
           import "beartype._decor.decorcache" "beartype" "__beartype__";
           import "beartype.door._doorcheck" "die_if_unbearable"
             "__die_if_unbearable_beartype__";
           import "beartype.claw._clawstate" "claw_state"
             "__claw_state_beartype__";
           ClassDef "MuhClass" [muh_func] [Name "__beartype__" Load];
           muh_func_checked; muh_attr; check])).
Proof. vm_compute. reflexivity. Qed.

(** An assertion that fails under an [if] leaves the [if] on the stack. *)
Example visit_bad_attr :
  let visited := @visit magic munge conf_default bad_attr [] in
  fst visited = [NodeStmt bad_attr] /\
  match snd visited with
  | Raise e => exception_cls e = AssertionError
  | Return _ => False
  end.
Proof. vm_compute. split; reflexivity. Qed.

End ClawInstances.
